(** * NERD: active-learning NER tagger (NERD/NER.py)

    A shallow embedding of the pure parts of [BaseNerTagger] and [NerTagger]:
    the alphanumeric classifier, the feature extractor, the BILOU codec over
    span elements, the uncertainty scorer, the pools of the active-learning
    controller and the entity-extraction scan.

    Python [str] values are modelled as [string] restricted to ASCII text:
    a character classifies as a digit, an upper-case or a lower-case letter
    by its ASCII code and every other byte is uncased and not alphanumeric.
    Python [float] and numpy [float64] values are the primitive binary64
    floats. *)

From Stdlib Require Import ZArith Lia List Ascii String Bool Reals Lra.
From Stdlib Require Import Floats Uint63.
From stdpp Require Import base option list strings gmap.

Local Open Scope string_scope.
Local Open Scope Z_scope.

Set Warnings "-inexact-float".

(** ** Python string primitives *)

Module PyStr.

Definition code (c : ascii) : nat := nat_of_ascii c.

Definition char_isdigit (c : ascii) : bool :=
  ((48 <=? code c) && (code c <=? 57))%nat.

Definition char_isupper (c : ascii) : bool :=
  ((65 <=? code c) && (code c <=? 90))%nat.

Definition char_islower (c : ascii) : bool :=
  ((97 <=? code c) && (code c <=? 122))%nat.

Definition char_isalpha (c : ascii) : bool :=
  char_isupper c || char_islower c.

(** [c.isascii()]: the characters on which the classes above are those of
    Python. *)
Definition char_isascii (c : ascii) : bool := (code c <? 128)%nat.

Definition char_lower (c : ascii) : ascii :=
  if char_isupper c then ascii_of_nat (code c + 32) else c.

Fixpoint chars (s : string) : list ascii :=
  match s with
  | EmptyString => []
  | String c r => c :: chars r
  end.

Fixpoint of_chars (l : list ascii) : string :=
  match l with
  | [] => EmptyString
  | c :: r => String c (of_chars r)
  end.

Definition len (s : string) : nat := String.length s.

(** [str.isdigit()]: non-empty and every character a digit. *)
Definition isdigit (s : string) : bool :=
  negb (Nat.eqb (len s) 0) && forallb char_isdigit (chars s).

(** [str.isalpha()]: non-empty and every character a letter. *)
Definition isalpha (s : string) : bool :=
  negb (Nat.eqb (len s) 0) && forallb char_isalpha (chars s).

(** [str.isupper()]: at least one cased character and no lower-case one. *)
Definition isupper (s : string) : bool :=
  existsb char_isalpha (chars s) && negb (existsb char_islower (chars s)).

(** [str.islower()]: at least one cased character and no upper-case one. *)
Definition islower (s : string) : bool :=
  existsb char_isalpha (chars s) && negb (existsb char_isupper (chars s)).

Definition lower (s : string) : string :=
  of_chars (map char_lower (chars s)).

(** [str.istitle()]: upper-case letters only after uncased characters,
    lower-case letters only after cased ones, and at least one cased
    character.  [prev_cased] is the scan's memory of the previous character
    and [seen] records that a cased character occurred. *)
Fixpoint istitle_from (prev_cased seen : bool) (l : list ascii) : bool :=
  match l with
  | [] => seen
  | c :: r =>
      if char_isupper c then
        if prev_cased then false else istitle_from true true r
      else if char_islower c then
        if prev_cased then istitle_from true true r else false
      else istitle_from false seen r
  end.

Definition istitle (s : string) : bool := istitle_from false false (chars s).

(** [s[-n:]]: the last [n] characters, the whole string when it is shorter. *)
Definition suffix (n : nat) (s : string) : string :=
  of_chars (skipn (length (chars s) - n)%nat (chars s)).

(** [s[n:]]: the string without its first [n] characters. *)
Definition drop (n : nat) (s : string) : string :=
  of_chars (skipn n (chars s)).

(** [s[0]] and [s[-1]]; [None] stands for Python's [IndexError]. *)
Definition first (s : string) : option ascii := head (chars s).
Definition final (s : string) : option ascii := last (chars s).

Fixpoint startswith (p s : string) : bool :=
  match p, s with
  | EmptyString, _ => true
  | String a p', String b s' => Ascii.eqb a b && startswith p' s'
  | String _ _, EmptyString => false
  end.

(** [sep.join(l)]. *)
Fixpoint join (sep : string) (l : list string) : string :=
  match l with
  | [] => ""
  | [x] => x
  | x :: r => x ++ sep ++ join sep r
  end.

(** [s.split(sep)] for a non-empty separator.  [skip] counts the characters
    of a separator still to be passed over and [cur] holds the piece being
    read, last character first. *)
Fixpoint split_from (sep : string) (skip : nat) (cur : list ascii)
    (s : string) : list string :=
  match s with
  | EmptyString => [of_chars (rev cur)]
  | String c r =>
      match skip with
      | S k => split_from sep k cur r
      | O =>
          if startswith sep s
          then of_chars (rev cur) :: split_from sep (len sep - 1) [] r
          else split_from sep 0 (c :: cur) r
      end
  end.

Definition split (sep s : string) : list string := split_from sep 0 [] s.

End PyStr.

(** ** Alphanumeric classifier: [BaseNerTagger._is_alpha_and_numeric] *)

(** The score of one end character in the two-end test. *)
Definition end_score (c : ascii) : Z :=
  if PyStr.char_isdigit c then 1
  else if PyStr.char_isalpha c then -1
  else 0.

Definition _is_alpha_and_numeric (s : string) : string :=
  if PyStr.isdigit s then "DIGIT"
  else if PyStr.isalpha s then
    if PyStr.isupper s then "ALPHA_UPPER"
    else if PyStr.islower s then "ALPHA_LOWER"
    else "ALPHA"
  else if (0 <? PyStr.len s)%nat then
    match PyStr.first s, PyStr.final s with
    | Some a, Some b =>
        let alphanum := 0 + end_score a + end_score b in
        if alphanum =? 0 then "ALPHA_NUM" else ""
    | _, _ => ""
    end
  else "EMPTY".

(** ** Feature extractor: [BaseNerTagger._word2features] *)

(** A token is a Python tuple [(surface, postag)] or, once labelled,
    [(surface, postag, label)]; [tok_label = None] is the 2-tuple. *)
Record Token := mkToken {
  tok_word : string;
  tok_pos : string;
  tok_label : option string
}.

Definition unlabelled_token (w p : string) : Token := mkToken w p None.
Definition labelled_token (w p l : string) : Token := mkToken w p (Some l).

(** [len(tok)] of the tuple. *)
Definition tuple_len (t : Token) : nat :=
  match tok_label t with Some _ => 3%nat | None => 2%nat end.

(** The values a feature takes: the float [1.0] of the bias term, strings
    and booleans. *)
Inductive FeatureValue :=
  | FFloat (z : Z)
  | FStr (s : string)
  | FBool (b : bool).

(** [dict.update] with the entries of a dict literal, left to right. *)
Definition dict_update {V} (m : gmap string V) (kvs : list (string * V))
  : gmap string V :=
  foldl (fun acc kv => <[kv.1 := kv.2]> acc) m kvs.

Definition own_features (word postag : string)
  : list (string * FeatureValue) :=
  [ ("bias", FFloat 1);
    ("word.lower()", FStr (PyStr.lower word));
    ("word[-3:]", FStr (PyStr.suffix 3 word));
    ("word[-2:]", FStr (PyStr.suffix 2 word));
    ("word.isupper()", FBool (PyStr.isupper word));
    ("word.istitle()", FBool (PyStr.istitle word));
    ("word.isdigit()", FBool (PyStr.isdigit word));
    ("word.is_alphanum", FStr (_is_alpha_and_numeric word));
    ("postag", FStr postag) ].

Definition neighbour_features (off word postag : string)
  : list (string * FeatureValue) :=
  [ (off ++ "word.lower()", FStr (PyStr.lower word));
    (off ++ "word[-3:]", FStr (PyStr.suffix 3 word));
    (off ++ "word[-2:]", FStr (PyStr.suffix 2 word));
    (off ++ "word.istitle()", FBool (PyStr.istitle word));
    (off ++ "word.isupper()", FBool (PyStr.isupper word));
    (off ++ "postag", FStr postag);
    (off ++ "word.is_alphanum", FStr (_is_alpha_and_numeric word)) ].

(** The features of the neighbour at list position [j]; [None] is the
    [IndexError] of [sent[j]]. *)
Definition add_neighbour (off : string) (sent : list Token) (j : nat)
    (features : gmap string FeatureValue)
  : option (gmap string FeatureValue) :=
  t ← sent !! j;
  Some (dict_update features (neighbour_features off (tok_word t) (tok_pos t))).

Definition _word2features (sent : list Token) (i : nat)
  : option (gmap string FeatureValue) :=
  t ← sent !! i;
  let features := dict_update ∅ (own_features (tok_word t) (tok_pos t)) in
  features ←
    (if (0 <? Z.of_nat i) then add_neighbour "-1:" sent (i - 1) features
     else Some (<["BOS" := FBool true]> features));
  features ←
    (if (1 <? Z.of_nat i) then add_neighbour "-2:" sent (i - 2) features
     else Some features);
  features ←
    (if (Z.of_nat i <? Z.of_nat (length sent) - 1)
     then add_neighbour "+1:" sent (i + 1) features
     else Some (<["EOS" := FBool true]> features));
  (if (Z.of_nat i <? Z.of_nat (length sent) - 2)
   then add_neighbour "+2:" sent (i + 2) features
   else Some features).

(** [_sent2features]: one mapping per position of [range(len(sent))]. *)
Definition _sent2features (sent : list Token)
  : option (list (gmap string FeatureValue)) :=
  mapM (_word2features sent) (seq 0 (length sent)).

(** [_sent2labels]: unpacking [token, postag, label] fails on a 2-tuple. *)
Definition _sent2labels (sent : list Token) : option (list string) :=
  mapM tok_label sent.

(** [_add_prediction_to_postagged_data]; [None] is the [IndexError] of a
    prediction shorter than the sentence. *)
Definition _add_prediction_to_postagged_data (postagged : list Token)
    (prediction : list string) : option (list Token) :=
  mapM (fun i =>
          t ← postagged !! i;
          p ← prediction !! i;
          Some (mkToken (tok_word t) (tok_pos t) (Some p)))
       (seq 0 (length postagged)).

(** ** Python values shared by the stateful operations *)

Inductive PyExn :=
  | IndexError
  | KeyError
  | AttributeError
  | ValueError
  | TypeError.

(** How a call ends: with a value or with a raised exception. *)
Inductive Outcome (A : Type) :=
  | Returned (a : A)
  | Raised (e : PyExn).
Arguments Returned {A} a.
Arguments Raised {A} e.

(** ** Uncertainty scorer: [BaseNerTagger._get_prediction_uncertainity]

    Probabilities and entropies are IEEE 754 binary64 numbers, as Python's
    [float] and numpy's [float64] are: they are the primitive floats, and
    [+], [/] and the comparisons round and order as in the program.
    [scipy.stats.entropy] is the library's: it is a parameter [entropy] of
    the scorer, called with [list(tok.values())]. *)

Module Scorer.

(** One token's marginals: a dict from label to probability, in insertion
    order. *)
Definition Marginals := list (string * float).

Definition values (tok : Marginals) : list float := map snd tok.

(** Python's [sum]: a left fold of [+] from the int [0]. *)
Definition pysum (l : list float) : float := fold_left PrimFloat.add l 0%float.

(** Python's [max] of a list with first element [x]: a later item replaces
    the running maximum when it compares greater. *)
Definition pymax (x : float) (l : list float) : float :=
  fold_left (fun m item => if PrimFloat.ltb m item then item else m) l x.

(** The int [len(un)] as the divisor of a float: converted exactly (a list
    has fewer than 2^53 elements). *)
Definition float_of_len (n : nat) : float :=
  PrimFloat.of_uint63 (Uint63.of_Z (Z.of_nat n)).

(** The reduction of the per-token entropies [e :: rest] (the list [un],
    which is not empty where it is reduced); [None] is the [None] that
    Python returns when [mode] is neither of the two names. *)
Definition reduce_uncertainty (e : float) (rest : list float) (mode : string)
  : option float :=
  if String.eqb mode "max" then Some (pymax e rest)
  else if String.eqb mode "mean"
       then Some (PrimFloat.div (pysum (e :: rest))
                                (float_of_len (length (e :: rest))))
  else None.

Section Entropy.

Variable entropy : list float -> float.

(** The scorer; an example without tokens is answered [0] before
    anything is computed. *)
Definition _get_prediction_uncertainity (pred : list Marginals)
    (mode : string) : option float :=
  match pred with
  | [] => Some 0%float
  | tok :: toks =>
      reduce_uncertainty (entropy (values tok))
                         (map (fun t => entropy (values t)) toks) mode
  end.

End Entropy.

(** [numpy.argmax] over an array of floats: the position of the first NaN
    if there is one, and of the first maximum otherwise.  [best] and [bi]
    are the running maximum and its position. *)
Fixpoint argmax_from (best : float) (bi i : nat) (l : list float) : nat :=
  match l with
  | [] => bi
  | x :: r =>
      if PrimFloat.leb x best then argmax_from best bi (S i) r
      else if PrimFloat.is_nan x then i
      else argmax_from x i (S i) r
  end.

Definition argmax_floats (l : list float) : option nat :=
  match l with
  | [] => None
  | x :: r =>
      Some (if PrimFloat.is_nan x then 0%nat else argmax_from x 0%nat 1%nat r)
  end.

(** [numpy.argmax(uncertainities)] on the list of scores, where a score is
    a number or Python's [None].  A list of numbers becomes a float array;
    with a [None] in it the array holds objects, whose comparison with
    [None] raises [TypeError] unless the list has a single entry, which is
    compared with nothing.  An empty list raises [ValueError]. *)
Definition argmax (l : list (option float)) : Outcome nat :=
  match mapM (fun score => score) l with
  | Some numbers =>
      match argmax_floats numbers with
      | Some k => Returned k
      | None => Raised ValueError
      end
  | None =>
      match l with
      | [_] => Returned 0%nat
      | _ => Raised TypeError
      end
  end.

(** *** [scipy.stats.entropy] as documented, in exact arithmetic

    The documented formula of the library function, over real numbers:
    the values are divided by their sum and [entr] is summed over them,
    where [entr x] is [- x * log x] with the natural logarithm. *)

Local Open Scope R_scope.

Definition rsum (l : list R) : R := fold_left Rplus l 0.

Definition entr (x : R) : R := - x * ln x.

Definition entropy_formula (pk : list R) : R :=
  let total := rsum pk in
  rsum (map (fun p => entr (p / total)) pk).

(** The standard formula, for comparison with [entropy_formula]: minus the
    sum of [p * ln p] over the distribution. *)
Definition shannon (pk : list R) : R :=
  - rsum (map (fun p => p * ln p) pk).

End Scorer.

(** ** Python lists and random draws *)

(** [l[i]] for a Python int [i]: a negative index counts from the end. *)
Definition py_index {A} (l : list A) (i : Z) : option A :=
  if 0 <=? i then l !! Z.to_nat i
  else if - Z.of_nat (length l) <=? i then l !! Z.to_nat (Z.of_nat (length l) + i)
  else None.

(** [l.pop(i)]: the list without position [i]; [None] is [IndexError]. *)
Definition py_pop {A} (l : list A) (i : Z) : option (list A) :=
  if (0 <=? i) && (i <? Z.of_nat (length l)) then Some (delete (Z.to_nat i) l)
  else if (- Z.of_nat (length l) <=? i) && (i <? 0)
       then Some (delete (Z.to_nat (Z.of_nat (length l) + i)) l)
  else None.

(** The random source: the [k]-th raw draw of a call. *)
Definition Rng := nat -> Z.

(** [random.randint(a, b)]: both ends included; [None] is [ValueError]. *)
Definition random_randint (rng : Rng) (a b : Z) : option Z :=
  if a <=? b then Some (a + rng 0%nat `mod` (b - a + 1)) else None.

(** [numpy.random.randint(low, high, size)]: [size] draws from
    [low .. high - 1], the upper end excluded; [None] is [ValueError]. *)
Definition np_random_randint (rng : Rng) (low high : Z) (size : nat)
  : option (list Z) :=
  if low <? high
  then Some (map (fun k => low + rng k `mod` (high - low)) (seq 0 size))
  else None.

(** ** Active-learning controller: [BaseNerTagger] *)

Definition Features := gmap string FeatureValue.

(** An example is a dict with the key ['raw'] and, once computed, the key
    ['features']. *)
Record Example := mkExample {
  ex_raw : list Token;
  ex_features : option (list Features)
}.

(** What [save_example] returns: [False] or, by falling off its end,
    [None]. *)
Inductive SaveResult := RFalse | RNone.

Section Controller.

Variable Model : Type.
Variable predict_single : Model -> list Features -> list string.
Variable predict_marginals :
  Model -> list (list Features) -> list (list Scorer.Marginals).
Variable entropy : list float -> float.
Variable _get_pos_tagged_example : string -> list Token.

(** The tagger object.  Example dicts live in [heap] and both pools and the
    current-selection slot hold references into it, as the Python lists
    share the dict objects. *)
Record Tagger := mkTagger {
  heap : gmap nat Example;
  unlabelled : option (list nat);
  labelled : list nat;
  model : option Model;
  current_example_index : option Z;
  current_example : option nat
}.

Definition set_heap (h : gmap nat Example) (s : Tagger) : Tagger :=
  mkTagger h (unlabelled s) (labelled s) (model s)
           (current_example_index s) (current_example s).

Definition set_unlabelled (u : option (list nat)) (s : Tagger) : Tagger :=
  mkTagger (heap s) u (labelled s) (model s)
           (current_example_index s) (current_example s).

Definition set_labelled (l : list nat) (s : Tagger) : Tagger :=
  mkTagger (heap s) (unlabelled s) l (model s)
           (current_example_index s) (current_example s).

Definition set_current_example_index (i : Z) (s : Tagger) : Tagger :=
  mkTagger (heap s) (unlabelled s) (labelled s) (model s)
           (Some i) (current_example s).

Definition set_current_example (a : nat) (s : Tagger) : Tagger :=
  mkTagger (heap s) (unlabelled s) (labelled s) (model s)
           (current_example_index s) (Some a).

(** Allocation of the dicts [{'raw': ...}] of a list comprehension, from
    the address [next] on. *)
Fixpoint alloc_examples (next : nat) (raws : list (list Token))
    (h : gmap nat Example) : list nat * gmap nat Example :=
  match raws with
  | [] => ([], h)
  | r :: rest =>
      let '(addrs, h') :=
        alloc_examples (S next) rest (<[next := mkExample r None]> h) in
      (next :: addrs, h')
  end.

(** [BaseNerTagger.__init__] with [labelled=None]. *)
Definition BaseNerTagger_init (dataset : option (list string)) : Tagger :=
  match dataset with
  | None => mkTagger ∅ None [] None None None
  | Some texts =>
      let '(addrs, h) :=
        alloc_examples 0 (map _get_pos_tagged_example texts) ∅ in
      mkTagger h (Some addrs) [] None None None
  end.

Definition get_new_random_example (rng : Rng) (s : Tagger)
  : Outcome (list Token) * Tagger :=
  match unlabelled s with
  | None => (Raised TypeError, s)
  | Some pool =>
      match random_randint rng 0 (Z.of_nat (length pool) - 1) with
      | None => (Raised ValueError, s)
      | Some i =>
          let s := set_current_example_index i s in
          match py_index pool i with
          | None => (Raised IndexError, s)
          | Some a =>
              let s := set_current_example a s in
              match heap s !! a with
              | None => (Raised KeyError, s)
              | Some ex => (Returned (ex_raw ex), s)
              end
          end
      end
  end.

(** The subsample of [query_new_example]: positions of the pool of size
    [n]. *)
Definition query_sample (rng : Rng) (n : nat) : option (list Z) :=
  if Nat.eqb n 1 then Some [0]
  else np_random_randint rng 0 (Z.of_nat n - 1) 250.

(** The loop over the sample: each example's features are computed and
    cached in its dict on first use and collected in [X]. *)
Fixpoint collect_features (pool : list nat) (sample : list Z)
    (h : gmap nat Example) : option (list (list Features)) * gmap nat Example :=
  match sample with
  | [] => (Some [], h)
  | i :: rest =>
      match py_index pool i with
      | None => (None, h)
      | Some a =>
          match h !! a with
          | None => (None, h)
          | Some ex =>
              let cached :=
                match ex_features ex with
                | Some f => Some (f, h)
                | None =>
                    match _sent2features (ex_raw ex) with
                    | Some f => Some (f, <[a := mkExample (ex_raw ex) (Some f)]> h)
                    | None => None
                    end
                end in
              match cached with
              | None => (None, h)
              | Some (f, h1) =>
                  let '(X, h2) := collect_features pool rest h1 in
                  (cons f <$> X, h2)
              end
          end
      end
  end.

Definition query_new_example (mode : string) (rng : Rng) (s : Tagger)
  : Outcome (list Token) * Tagger :=
  match unlabelled s with
  | None => (Raised TypeError, s)
  | Some pool =>
      match query_sample rng (length pool) with
      | None => (Raised ValueError, s)
      | Some sample =>
          let '(X, h) := collect_features pool sample (heap s) in
          let s := set_heap h s in
          match X, model s with
          | None, _ => (Raised IndexError, s)
          | Some _, None => (Raised AttributeError, s)
          | Some X, Some m =>
              let preds := predict_marginals m X in
              let uncertainities :=
                map (fun pred =>
                       Scorer._get_prediction_uncertainity entropy pred mode)
                    preds in
              match Scorer.argmax uncertainities with
              | Raised e => (Raised e, s)
              | Returned index =>
                  match sample !! index with
                  | None => (Raised IndexError, s)
                  | Some i =>
                      let s := set_current_example_index i s in
                      match py_index pool i with
                      | None => (Raised IndexError, s)
                      | Some a =>
                          let s := set_current_example a s in
                          match heap s !! a with
                          | None => (Raised KeyError, s)
                          | Some ex =>
                              match ex_features ex with
                              | None => (Raised KeyError, s)
                              | Some f =>
                                  match _add_prediction_to_postagged_data
                                          (ex_raw ex) (predict_single m f) with
                                  | None => (Raised IndexError, s)
                                  | Some toret => (Returned toret, s)
                                  end
                              end
                          end
                      end
                  end
              end
          end
      end
  end.

(** The tuples [(raw[index][0], raw[index][1], data[index][1])] built by the
    loop of [save_example]. *)
Definition corrected_tokens (raw : list Token) (data : list (string * string))
  : option (list Token) :=
  mapM (fun index =>
          t ← raw !! index;
          d ← data !! index;
          Some (mkToken (tok_word t) (tok_pos t) (Some d.2)))
       (seq 0 (length data)).

Definition save_example (data : list (string * string)) (s : Tagger)
  : Outcome SaveResult * Tagger :=
  match current_example s with
  | None => (Raised AttributeError, s)
  | Some a =>
      match heap s !! a with
      | None => (Raised KeyError, s)
      | Some ex =>
          if negb (Nat.eqb (length data) (length (ex_raw ex)))
          then (Returned RFalse, s)
          else
            match corrected_tokens (ex_raw ex) data with
            | None => (Raised IndexError, s)
            | Some toret =>
                let s := set_heap (<[a := mkExample toret (ex_features ex)]> (heap s)) s in
                match _sent2features toret with
                | None => (Raised IndexError, s)
                | Some f =>
                    let s := set_heap (<[a := mkExample toret (Some f)]> (heap s)) s in
                    let s := set_labelled (labelled s ++ [a])%list s in
                    match current_example_index s, unlabelled s with
                    | None, _ => (Raised AttributeError, s)
                    | Some _, None => (Raised AttributeError, s)
                    | Some i, Some pool =>
                        match py_pop pool i with
                        | None => (Raised IndexError, s)
                        | Some pool' =>
                            (Returned RNone, set_unlabelled (Some pool') s)
                        end
                    end
                end
            end
      end
  end.

(** [add_unlabelled_examples]: fresh dicts appended to the pool. *)
Definition add_unlabelled_examples (next : nat) (examples : list string)
    (s : Tagger) : Outcome unit * Tagger :=
  let '(addrs, h) :=
    alloc_examples next (map _get_pos_tagged_example examples) (heap s) in
  match unlabelled s with
  | None => (Raised AttributeError, s)
  | Some pool => (Returned tt, set_unlabelled (Some (pool ++ addrs)%list) (set_heap h s))
  end.

End Controller.

(** ** BILOU codec: [NerTagger._generate_html_from_example] and
       [NerTagger._get_bilou_tags_from_html]

    The markup is a sequence of [span] elements, each with its text and
    its attributes.  Serialising the elements with [str(soup)] and parsing
    them back with [BeautifulSoup(html, 'html.parser')] is the library's
    work and is taken to give the same elements back; the integer
    [data-tag-id] then reads as its decimal string, which names the same
    groups. *)

Record Span := mkSpan {
  span_text : string;
  data_tag_id : option nat;
  data_tag : option string;
  class_attr : option string
}.

Definition plain_span (text : string) : Span := mkSpan text None None None.

Definition tagged_span (text : string) (id : nat) (tag : string) : Span :=
  mkSpan text (Some id) (Some tag) (Some tag).

Definition char_in (c : ascii) (l : list ascii) : bool :=
  existsb (Ascii.eqb c) l.

(** The loop over [range(len(ex))] that sets the attributes; [None] is the
    [IndexError] of [ex[i][2]] on a 2-tuple or of [tag[0]] on an empty
    label. *)
Fixpoint assign_tags (tagidcounter : nat) (ex : list Token)
  : option (list Span) :=
  match ex with
  | [] => Some []
  | item :: rest =>
      tag ← tok_label item;
      c ← PyStr.first tag;
      if char_in c ["B"; "I"]%char then
        spans ← assign_tags tagidcounter rest;
        Some (tagged_span (tok_word item) tagidcounter (PyStr.drop 2 tag) :: spans)
      else if char_in c ["L"; "U"]%char then
        spans ← assign_tags (S tagidcounter) rest;
        Some (tagged_span (tok_word item) tagidcounter (PyStr.drop 2 tag) :: spans)
      else
        spans ← assign_tags tagidcounter rest;
        Some (plain_span (tok_word item) :: spans)
  end.

(** The encoder, called with the token list (a dict argument is first
    replaced by its ['raw'] list).  [None] is the [IndexError] of [ex[0]] on
    an empty example. *)
Definition _generate_html_from_example (ex : list Token)
  : option (list Span) :=
  let spans := map (fun item => plain_span (tok_word item)) ex in
  first ← head ex;
  if Nat.eqb (tuple_len first) 3 then assign_tags 0 ex else Some spans.

Definition _is_a_tag (span : Span) : bool :=
  match data_tag span with Some _ => true | None => false end.

(** [counter[tag_id]] of the [Counter] built from [tag_ids]. *)
Definition counter_get (tag_ids : list nat) (tag_id : nat) : Z :=
  Z.of_nat (length (filter (fun k => k = tag_id) tag_ids)).

(** The texts [items[index + i + 1].text] for [i] in [range(size - 2)],
    each labelled [I-tag]. *)
Definition inside_items (items : list Span) (index size : Z) (tag : string)
  : option (list (string * string)) :=
  mapM (fun i =>
          it ← py_index items (index + Z.of_nat i + 1);
          Some (span_text it, "I-" ++ tag))
       (seq 0 (Z.to_nat (size - 2))).

(** The [while] loop.  [fuel] bounds the number of iterations; [None] says
    the loop had not ended when the fuel was used up. *)
Fixpoint decode_loop (fuel : nat) (items : list Span) (tag_ids : list nat)
    (index : Z) (toret : list (string * string))
  : option (Outcome (list (string * string))) :=
  if negb (index <? Z.of_nat (length items)) then Some (Returned toret)
  else
    match fuel with
    | O => None
    | S fuel =>
        match py_index items index with
        | None => Some (Raised IndexError)
        | Some item =>
            match data_tag item with
            | None =>
                decode_loop fuel items tag_ids (index + 1)
                            (toret ++ [(span_text item, "O")])%list
            | Some tag =>
                match data_tag_id item with
                | None => Some (Raised KeyError)
                | Some tag_id =>
                    let size := counter_get tag_ids tag_id in
                    if size =? 1 then
                      decode_loop fuel items tag_ids (index + 1)
                                  (toret ++ [(span_text item, ("U-" ++ tag)%string)])%list
                    else if size =? 2 then
                      match py_index items (index + 1) with
                      | None => Some (Raised IndexError)
                      | Some nxt =>
                          decode_loop fuel items tag_ids (index + 2)
                            (toret ++ [(span_text item, ("B-" ++ tag)%string);
                                       (span_text nxt, ("L-" ++ tag)%string)])%list
                      end
                    else
                      match inside_items items index size tag,
                            py_index items (index + size - 1) with
                      | Some ins, Some lst =>
                          decode_loop fuel items tag_ids (index + size)
                            (toret ++ [(span_text item, ("B-" ++ tag)%string)] ++ ins
                                   ++ [(span_text lst, ("L-" ++ tag)%string)])%list
                      | _, _ => Some (Raised IndexError)
                      end
                end
            end
        end
    end.

Definition _get_bilou_tags_from_html (items : list Span)
  : option (Outcome (list (string * string))) :=
  let tag_items := filter (fun it => _is_a_tag it = true) items in
  match mapM data_tag_id tag_items with
  | None => Some (Raised KeyError)
  | Some tag_ids => decode_loop (length items) items tag_ids 0 []
  end.

(** ** Display colors and the page template: [list_of_colors],
       [NerTagger._render_app_template] *)

Definition list_of_colors_text : string :=
  "#e6194B, #3cb44b, #ffe119, #4363d8, #f58231, #911eb4, #42d4f4, #f032e6, #bfef45, #fabebe, #469990, "
  ++ "#e6beff, #9A6324, #fffac8, #800000, #aaffc3, #808000, #ffd8b1, #000075, #a9a9a9 ".

Definition list_of_colors : list string :=
  Eval vm_compute in PyStr.split ", " list_of_colors_text.

Definition too_many_tags : string :=
  "Too many tags. Add more colors to list_of_colors".

(** ** Entity records and the extraction scan *)

Record Entity := mkEntity {
  value : string;
  entity : string
}.

(** [entities.append({'value': v, 'entity': self.utmapping[curr_ent]})];
    [None] is the [KeyError] of the lookup. *)
Definition append_entity (utmapping : gmap string string) (v curr_ent : string)
    (entities : list Entity) : option (list Entity) :=
  name ← utmapping !! curr_ent;
  Some (entities ++ [mkEntity v name])%list.

(** The [for] loop of [find_entities_in_text] with its closing flush, over
    the zipped (token, tag) pairs; [None] is a [KeyError]. *)
Fixpoint scan_entities (utmapping : gmap string string)
    (lst : list (string * string)) (curr_ent : string)
    (ent_toks : list string) (entities : list Entity)
  : option (list Entity) :=
  match lst with
  | [] =>
      if (0 <? length ent_toks)%nat
      then append_entity utmapping (PyStr.join " " ent_toks) curr_ent entities
      else Some entities
  | (text, tag) :: rest =>
      if PyStr.startswith "B-" tag then
        if (0 <? length ent_toks)%nat then
          entities ←
            append_entity utmapping (PyStr.join " " ent_toks) curr_ent entities;
          scan_entities utmapping rest (PyStr.drop 2 tag) [text] entities
        else
          scan_entities utmapping rest (PyStr.drop 2 tag)
                        (ent_toks ++ [text])%list entities
      else if PyStr.startswith "I-" tag then
        if String.eqb curr_ent "O"
        then scan_entities utmapping rest curr_ent ent_toks entities
        else scan_entities utmapping rest curr_ent (ent_toks ++ [text])%list
                           entities
      else if PyStr.startswith "L-" tag then
        if String.eqb curr_ent "O"
        then scan_entities utmapping rest curr_ent ent_toks entities
        else
          entities ←
            append_entity utmapping
              (PyStr.join " " (ent_toks ++ [text])%list) curr_ent entities;
          scan_entities utmapping rest curr_ent [] entities
      else if PyStr.startswith "U-" tag then
        entities ←
          append_entity utmapping text (PyStr.drop 2 tag) entities;
        scan_entities utmapping rest (PyStr.drop 2 tag) [] entities
      else if PyStr.startswith "O" tag then
        if (0 <? length ent_toks)%nat then
          entities ←
            append_entity utmapping (PyStr.join " " ent_toks) curr_ent entities;
          scan_entities utmapping rest "O" [] entities
        else scan_entities utmapping rest "O" [] entities
      else scan_entities utmapping rest curr_ent ent_toks entities
  end.

(** [zip]: pairs up to the shorter list. *)
Fixpoint zip {A B} (l : list A) (k : list B) : list (A * B) :=
  match l, k with
  | a :: l', b :: k' => (a, b) :: zip l' k'
  | _, _ => []
  end.

(** ** The tagging session: [NerTagger] *)

Section Session.

Variable Model : Type.
Variable predict_single : Model -> list Features -> list string.
Variable _get_pos_tagged_example : string -> list Token.

(** The rendering of the page template [ner_trainer.html], from the
    arguments [css_classes] and [tag_controls] ([id_color_map] is passed the
    same list as [css_classes]). *)
Variable template_render :
  list (string * string) -> list (string * string) -> string.

(** The session object; the Flask application is the routes over
    [ntagger] and [unique_tags] and holds no state of its own. *)
Record NerTagger := mkNerTagger {
  unique_tags : list (string * string);
  ntagger : Tagger Model;
  utmapping : gmap string string
}.

(** [NerTagger.__init__], with the dict comprehension written as the
    insertions it performs. *)
Definition NerTagger_init (dataset : option (list string))
    (unique_tags : list (string * string)) : Outcome NerTagger :=
  Returned
    (mkNerTagger unique_tags
       (BaseNerTagger_init Model _get_pos_tagged_example dataset)
       (foldl (fun m t => <[t.1 := t.2]> m) ∅ unique_tags)).

(** [None] inside is the [IndexError] of [list_of_colors[index]]. *)
Definition css_classes_of (unique_tags_data : list (string * string))
  : option (list (string * string)) :=
  mapM (fun '(index, item) =>
          color ← list_of_colors !! index;
          Some (item.1, color))
       (imap (fun index item => (index, item)) unique_tags_data).

Definition _render_app_template (unique_tags_data : list (string * string))
  : Outcome string :=
  if (length list_of_colors <? length unique_tags_data)%nat
  then Returned too_many_tags
  else
    match css_classes_of unique_tags_data with
    | None => Raised IndexError
    | Some css_classes =>
        Returned (template_render css_classes unique_tags_data)
    end.

(** The route ["/"] of the application. *)
Definition base_app (self : NerTagger) : Outcome string :=
  _render_app_template (unique_tags self).

Definition find_entities_in_text (self : NerTagger) (text : string)
  : Outcome (list Entity) :=
  let text := _get_pos_tagged_example text in
  match _sent2features text with
  | None => Raised IndexError
  | Some features =>
      match model Model (ntagger self) with
      | None => Raised AttributeError
      | Some m =>
          let prediction := predict_single m features in
          let lst := zip (map tok_word text) prediction in
          match scan_entities (utmapping self) lst "O" [] [] with
          | None => Raised KeyError
          | Some entities => Returned entities
          end
      end
  end.

End Session.

(** ** Valid label sequences and grouped markup *)

(** A token sequence with a valid BILOU label sequence: Outside tokens,
    Unit tokens standing alone, and spans made of one Begin, any number of
    Inside tokens and one Last, all with the same tag. *)
Inductive ValidBILOU : list Token -> Prop :=
  | valid_nil : ValidBILOU []
  | valid_outside (w p : string) (rest : list Token) :
      ValidBILOU rest ->
      ValidBILOU (labelled_token w p "O" :: rest)
  | valid_unit (w p t : string) (rest : list Token) :
      ValidBILOU rest ->
      ValidBILOU (labelled_token w p ("U-" ++ t)%string :: rest)
  | valid_span (w p t : string) (inside : list Token) (wl pl : string)
               (rest : list Token) :
      Forall (fun tk => tok_label tk = Some ("I-" ++ t)%string) inside ->
      ValidBILOU rest ->
      ValidBILOU (labelled_token w p ("B-" ++ t)%string
                    :: inside ++ labelled_token wl pl ("L-" ++ t)%string :: rest)%list.

(** The (text, label) pairs of a labelled token sequence. *)
Definition tagged_pairs (ex : list Token) : list (string * string) :=
  map (fun tk => (tok_word tk, default "" (tok_label tk))) ex.

(** The [data-tag-id] values of the elements that carry [data-tag], in
    document order. *)
Definition span_ids (items : list Span) : list nat :=
  omap (fun it => if _is_a_tag it then data_tag_id it else None) items.

(** Markup whose groups are contiguous and numbered upwards from [k],
    with the labels that the groups stand for. *)
Inductive Grouped : nat -> list Span -> list (string * string) -> Prop :=
  | grouped_nil (k : nat) : Grouped k [] []
  | grouped_plain (k : nat) (w : string) (spans : list Span)
                  (tags : list (string * string)) :
      Grouped k spans tags ->
      Grouped k (plain_span w :: spans) ((w, "O") :: tags)
  | grouped_unit (k : nat) (w t : string) (spans : list Span)
                 (tags : list (string * string)) :
      Grouped (S k) spans tags ->
      Grouped k (tagged_span w k t :: spans) ((w, ("U-" ++ t)%string) :: tags)
  | grouped_span (k : nat) (w t : string) (ws : list string) (wl : string)
                 (spans : list Span) (tags : list (string * string)) :
      Grouped (S k) spans tags ->
      Grouped k
        (tagged_span w k t
           :: map (fun x => tagged_span x k t) ws
           ++ tagged_span wl k t :: spans)%list
        ((w, ("B-" ++ t)%string)
           :: map (fun x => (x, ("I-" ++ t)%string)) ws
           ++ (wl, ("L-" ++ t)%string) :: tags)%list.

Arguments unique_tags {Model} _.
Arguments ntagger {Model} _.
Arguments utmapping {Model} _.
Arguments model {Model} _.
Arguments heap {Model} _.
Arguments unlabelled {Model} _.
Arguments labelled {Model} _.
Arguments current_example {Model} _.
Arguments current_example_index {Model} _.

(** ** Retraining, reloading and the routes of the application *)

Definition set_model {Model : Type} (m : option Model) (s : Tagger Model)
  : Tagger Model :=
  mkTagger Model (heap s) (unlabelled s) (labelled s) m
           (current_example_index s) (current_example s).

(** [[item['features'] for item in self.labelled]]; [None] is the
    [KeyError] of an example without features. *)
Definition training_features (h : gmap nat Example) (pool : list nat)
  : option (list (list Features)) :=
  mapM (fun a => ex ← h !! a; ex_features ex) pool.

(** [[_sent2labels(item['raw']) for item in self.labelled]]; [None] is the
    [ValueError] of unpacking a 2-tuple. *)
Definition training_labels (h : gmap nat Example) (pool : list nat)
  : option (list (list string)) :=
  mapM (fun a => ex ← h !! a; _sent2labels (ex_raw ex)) pool.

Section Operations.

Variable Model : Type.
Variable predict_single : Model -> list Features -> list string.
Variable predict_marginals :
  Model -> list (list Features) -> list (list Scorer.Marginals).
Variable entropy : list float -> float.

(** The external tagger: [CRF(...)] with the fixed hyperparameters gives
    [new_crf], and [model.fit(X, Y)] turns a model into the fitted one. *)
Variable new_crf : Model.
Variable fit : Model -> list (list Features) -> list (list string) -> Model.

(** [BaseNerTagger.update_model]: the model attribute is assigned before
    the training data are collected. *)
Definition update_model (s : Tagger Model) : Outcome unit * Tagger Model :=
  let m := default new_crf (model s) in
  let s := set_model (Some m) s in
  match training_features (heap s) (labelled s) with
  | None => (Raised KeyError, s)
  | Some X =>
      match training_labels (heap s) (labelled s) with
      | None => (Raised ValueError, s)
      | Some Y => (Returned tt, set_model (Some (fit m X Y)) s)
      end
  end.

(** The loop of [BaseNerTagger.load_data] over the unpickled dicts
    [loaded], stored from the address [next] on: each one keeps its tokens
    and gets its features computed anew. *)
Fixpoint reload_examples (next : nat) (loaded : list Example)
    (h : gmap nat Example) : option (list nat * gmap nat Example) :=
  match loaded with
  | [] => Some ([], h)
  | lab :: rest =>
      f ← _sent2features (ex_raw lab);
      '(addrs, h') ←
        reload_examples (S next) rest
                        (<[next := mkExample (ex_raw lab) (Some f)]> h);
      Some (next :: addrs, h')
  end.

(** [BaseNerTagger.load_data], after the file has been read. *)
Definition load_data (next : nat) (loaded : list Example) (s : Tagger Model)
  : Outcome unit * Tagger Model :=
  match reload_examples next loaded (heap s) with
  | None => (Raised IndexError, s)
  | Some (addrs, h) =>
      (Returned tt,
       mkTagger Model h (unlabelled s) addrs (model s)
                (current_example_index s) (current_example s))
  end.


(** The route ["/save_example"]: the result of [save_example] is not looked
    at.  The decoding loop always ends within its fuel, so the first case
    does not occur. *)
Definition route_save_example (html : list Span) (s : Tagger Model)
  : Outcome string * Tagger Model :=
  match _get_bilou_tags_from_html html with
  | None => (Raised IndexError, s)
  | Some (Raised e) => (Raised e, s)
  | Some (Returned user_tags) =>
      match save_example Model user_tags s with
      | (Raised e, s') => (Raised e, s')
      | (Returned _, s') => (Returned "Success", s')
      end
  end.

(** The route ["/update_model"]. *)
Definition route_update_model (s : Tagger Model)
  : Outcome string * Tagger Model :=
  match update_model s with
  | (Raised e, s') => (Raised e, s')
  | (Returned _, s') => (Returned "Model Updated Successfully", s')
  end.

End Operations.

(** The cached features of an example, where present, are those of its
    tokens. *)
Definition CacheCoherent (h : gmap nat Example) : Prop :=
  forall (a : nat) (ex : Example) (f : list Features),
    h !! a = Some ex -> ex_features ex = Some f ->
    _sent2features (ex_raw ex) = Some f.


(** Well-formed predictions and the entities they stand for: Outside
    tokens, Unit tokens and Begin .. Inside .. Last runs of one tag, every
    tag named by the vocabulary [um]. *)
Inductive Extracts (um : gmap string string)
  : list (string * string) -> list Entity -> Prop :=
  | extracts_nil : Extracts um [] []
  | extracts_outside (w : string) (rest : list (string * string))
                     (ents : list Entity) :
      Extracts um rest ents ->
      Extracts um ((w, "O") :: rest) ents
  | extracts_unit (w t name : string) (rest : list (string * string))
                  (ents : list Entity) :
      um !! t = Some name ->
      Extracts um rest ents ->
      Extracts um ((w, ("U-" ++ t)%string) :: rest) (mkEntity w name :: ents)
  | extracts_span (w t name : string) (ws : list string) (wl : string)
                  (rest : list (string * string)) (ents : list Entity) :
      um !! t = Some name ->
      t <> "O" ->
      Extracts um rest ents ->
      Extracts um
        ((w, ("B-" ++ t)%string)
           :: map (fun x => (x, ("I-" ++ t)%string)) ws
           ++ (wl, ("L-" ++ t)%string) :: rest)%list
        (mkEntity (PyStr.join " " (w :: ws ++ [wl])%list) name :: ents).

(** What a feature mapping [f] says about the neighbour at the offset
    [off]: the seven features of the token [p] when there is one, and no
    key under that prefix when there is none. *)
Definition describes_neighbour (f : gmap string FeatureValue) (off : string)
    (neighbour : option Token) : Prop :=
  match neighbour with
  | Some p =>
      f !! (off ++ "word.lower()") = Some (FStr (PyStr.lower (tok_word p))) /\
      f !! (off ++ "word[-3:]") = Some (FStr (PyStr.suffix 3 (tok_word p))) /\
      f !! (off ++ "word[-2:]") = Some (FStr (PyStr.suffix 2 (tok_word p))) /\
      f !! (off ++ "word.istitle()")
        = Some (FBool (PyStr.istitle (tok_word p))) /\
      f !! (off ++ "word.isupper()")
        = Some (FBool (PyStr.isupper (tok_word p))) /\
      f !! (off ++ "postag") = Some (FStr (tok_pos p)) /\
      f !! (off ++ "word.is_alphanum")
        = Some (FStr (_is_alpha_and_numeric (tok_word p)))
  | None => forall k : string, PyStr.startswith off k = true -> f !! k = None
  end.

(** ** Sample data *)

(** The tags and texts of the module's [__main__] block. *)
Definition main_tags : list (string * string) :=
  [ ("CT", "Course Title"); ("CC", "Course Code"); ("PREQ", "Pre-requisites");
    ("PROF", "Professor"); ("SE", "Season"); ("CR", "Credits") ].

Definition main_texts : list string :=
  [ "text one"; "text two"; "text three"; "this is text four" ].

(** A vocabulary of twenty-one tags, one more than there are colors. *)
Definition twenty_one_tags : list (string * string) :=
  main_tags ++
  [ ("T07", "Tag 07"); ("T08", "Tag 08"); ("T09", "Tag 09"); ("T10", "Tag 10");
    ("T11", "Tag 11"); ("T12", "Tag 12"); ("T13", "Tag 13"); ("T14", "Tag 14");
    ("T15", "Tag 15"); ("T16", "Tag 16"); ("T17", "Tag 17"); ("T18", "Tag 18");
    ("T19", "Tag 19"); ("T20", "Tag 20"); ("T21", "Tag 21") ].

(** A whitespace tokenizer's output for the four texts, every token tagged
    [NN]; it stands in for the external tokenizer and POS tagger. *)
Definition sample_pos_tag (text : string) : list Token :=
  map (fun w => unlabelled_token w "NN") (PyStr.split " " text).

(** A tagger whose pool holds "text one" and "text two", the first being
    the current selection. *)
Definition sample_tagger : Tagger unit :=
  set_current_example unit 0%nat
    (set_current_example_index unit 0
       (BaseNerTagger_init unit sample_pos_tag (Some ["text one"; "text two"]))).

(** The same pool in a tagger whose models are counted: model [n] has
    been fitted [n] times. *)
Definition sample_tagger_nat : Tagger nat :=
  BaseNerTagger_init nat sample_pos_tag (Some ["text one"; "text two"]).

(** The values of [scipy.stats.entropy] on the distributions of the
    sample: [ln 2] for two equally likely labels and [0] for a single
    certain label. *)
Definition sample_entropy (pk : list float) : float :=
  match pk with
  | [p; q] =>
      if (PrimFloat.eqb p 0.5 && PrimFloat.eqb q 0.5)%bool
      then 0.6931471805599453%float else 0%float
  | _ => 0%float
  end.

(** A stand-in for the marginals of a fitted CRF: certain of the label of
    every token of a two-token sentence, undecided between two labels on
    every token of any other sentence. *)
Definition sample_predict_marginals (m : unit) (X : list (list Features))
  : list (list Scorer.Marginals) :=
  map (fun f : list Features =>
         map (fun _ : Features =>
                if Nat.eqb (length f) 2
                then [("O", 1%float)]
                else [("B-CC", 0.5%float); ("O", 0.5%float)])
             f)
      X.

(** A tagger with a model and three unlabelled examples. *)
Definition sample_fitted_tagger : Tagger unit :=
  set_model (Some tt)
    (BaseNerTagger_init unit sample_pos_tag
       (Some ["text one"; "text two three"; "text"])).

(** The counted-model sample with its first example selected, and after
    the correction [text/O one/U-CC] of that example has been saved. *)
Definition sample_selected_nat : Tagger nat :=
  set_current_example nat 0%nat
    (set_current_example_index nat 0 sample_tagger_nat).

Definition sample_labelled_tagger : Tagger nat :=
  (save_example nat [("text", "O"); ("one", "U-CC")] sample_selected_nat).2.

(** * Properties *)

(** ** String helpers *)

Lemma of_chars_chars (s : string) : PyStr.of_chars (PyStr.chars s) = s.
Proof. induction s as [|c s IH]; simpl; [reflexivity | now rewrite IH]. Qed.

Lemma drop2_prefixed (a b : ascii) (t : string) :
  PyStr.drop 2 (String a (String b t)) = t.
Proof. unfold PyStr.drop. simpl. apply of_chars_chars. Qed.

(** ** Alphanumeric classifier *)

(** C3, as stated, fails on the last row of the table: the two-end test
    looks at the first and the last character of ["a!1"] only, a letter and
    a digit, so the class is [ALPHA_NUM] and not the empty string. *)
Lemma alphanum_table_last_row_differs :
  _is_alpha_and_numeric "a!1" <> "".
Proof. vm_compute. discriminate. Qed.

(** C3 (amended): the classification table of [_is_alpha_and_numeric], with
    ["a!1"] classified [ALPHA_NUM]. *)
Theorem alphanum_classification_table :
  _is_alpha_and_numeric "123" = "DIGIT" /\
  _is_alpha_and_numeric "ABC" = "ALPHA_UPPER" /\
  _is_alpha_and_numeric "abc" = "ALPHA_LOWER" /\
  _is_alpha_and_numeric "Abc" = "ALPHA" /\
  _is_alpha_and_numeric "a1" = "ALPHA_NUM" /\
  _is_alpha_and_numeric "" = "EMPTY" /\
  _is_alpha_and_numeric "a!1" = "ALPHA_NUM".
Proof. repeat split; reflexivity. Qed.

(** ** Feature extractor *)

Lemma add_neighbour_total (off : string) (sent : list Token) (j : nat)
    (f : Features) :
  (j < length sent)%nat -> is_Some (add_neighbour off sent j f).
Proof.
  intros Hj. unfold add_neighbour.
  destruct (lookup_lt_is_Some_2 sent j Hj) as [t Ht].
  rewrite Ht. simpl. eauto.
Qed.

(** One guarded neighbour step of [_word2features]: either the guard fails
    and the step is a plain value, or the neighbour position exists. *)
Ltac neighbour_step :=
  match goal with
  | |- is_Some ((if ?c then add_neighbour ?o ?s ?j ?f else Some ?g) ≫= _) =>
      let E := fresh "E" in
      destruct c eqn:E;
      [ apply Z.ltb_lt in E;
        let f' := fresh "f" in
        let Hf := fresh "Hf" in
        destruct (add_neighbour_total o s j f) as [f' Hf]; [lia|];
        rewrite Hf
      | ];
      cbn [mbind option_bind]
  end.

Lemma _word2features_total (sent : list Token) (i : nat) :
  (i < length sent)%nat -> is_Some (_word2features sent i).
Proof.
  intros Hi. unfold _word2features.
  destruct (lookup_lt_is_Some_2 sent i Hi) as [t Ht].
  rewrite Ht. cbn [mbind option_bind].
  do 3 neighbour_step;
    (destruct (Z.of_nat i <? Z.of_nat (length sent) - 2) eqn:E4;
     [ apply Z.ltb_lt in E4; apply add_neighbour_total; lia | eauto ]).
Qed.

Lemma mapM_total {A B} (f : A -> option B) (l : list A) :
  (forall x, x ∈ l -> is_Some (f x)) -> is_Some (mapM f l).
Proof.
  intros H. apply mapM_is_Some. apply Forall_forall. exact H.
Qed.

Lemma _sent2features_total (sent : list Token) :
  is_Some (_sent2features sent).
Proof.
  unfold _sent2features. apply mapM_total.
  intros i Hi. apply _word2features_total.
  apply elem_of_seq in Hi. lia.
Qed.

Lemma _sent2features_length (sent : list Token) (fs : list Features) :
  _sent2features sent = Some fs -> length fs = length sent.
Proof.
  unfold _sent2features. intros H.
  apply length_mapM in H. rewrite length_seq in H. symmetry. exact H.
Qed.

(** C9: for the sentence [("Dr", "NNP"), ("Smith", "NNP")] the mapping at
    index 0 has [BOS = True] and no key that starts with ["-1:"], and the
    mapping at index 1 has [EOS = True] and ["-1:word.lower()"] equal to
    ["dr"]. *)
Theorem dr_smith_boundary_features :
  let sent := [unlabelled_token "Dr" "NNP"; unlabelled_token "Smith" "NNP"] in
  exists f0 f1 : gmap string FeatureValue,
    _word2features sent 0 = Some f0 /\
    f0 !! "BOS" = Some (FBool true) /\
    (forall k : string, PyStr.startswith "-1:" k = true -> f0 !! k = None) /\
    _word2features sent 1 = Some f1 /\
    f1 !! "EOS" = Some (FBool true) /\
    f1 !! "-1:word.lower()" = Some (FStr "dr").
Proof.
  intros sent.
  destruct (_word2features_total sent 0) as [f0 H0]; [simpl; lia|].
  destruct (_word2features_total sent 1) as [f1 H1]; [simpl; lia|].
  exists f0, f1.
  assert (L0 : map_to_list f0 =
               default [] (map_to_list <$> _word2features sent 0))
    by (rewrite H0; reflexivity).
  assert (B0 : f0 !! "BOS" = (_word2features sent 0 ≫= fun f => f !! "BOS"))
    by (rewrite H0; reflexivity).
  assert (E1 : f1 !! "EOS" = (_word2features sent 1 ≫= fun f => f !! "EOS"))
    by (rewrite H1; reflexivity).
  assert (P1 : f1 !! "-1:word.lower()" =
               (_word2features sent 1 ≫= fun f => f !! "-1:word.lower()"))
    by (rewrite H1; reflexivity).
  split; [exact H0|].
  split; [rewrite B0; vm_compute; reflexivity|].
  split.
  { intros k Hk. destruct (f0 !! k) as [v|] eqn:E; [|reflexivity].
    exfalso. apply elem_of_map_to_list in E. rewrite L0 in E.
    set (l := default [] (map_to_list <$> _word2features sent 0)) in E.
    vm_compute in l. subst l.
    repeat (apply elem_of_cons in E as [E|E];
            [inversion E; subst; vm_compute in Hk; discriminate Hk|]).
    inversion E. }
  split; [exact H1|].
  split; [rewrite E1|rewrite P1]; vm_compute; reflexivity.
Qed.

(** ** Entity extraction *)

(** C8: over the tokens [the, John, A, Smith, teaches, CS101] predicted
    [O, B-PROF, I-PROF, L-PROF, O, U-CC], with [PROF] named "Professor" and
    [CC] named "Course Code", [find_entities_in_text] returns the entity
    "John A Smith" (Professor) and then the entity "CS101" (Course Code). *)
Theorem extraction_of_professor_and_course_code
    (Model : Type) (predict_single : Model -> list Features -> list string)
    (pos_tag : string -> list Token)
    (self : NerTagger Model) (text : string) (m : Model)
    (features : list Features) :
  map tok_word (pos_tag text)
    = ["the"; "John"; "A"; "Smith"; "teaches"; "CS101"] ->
  _sent2features (pos_tag text) = Some features ->
  model (ntagger self) = Some m ->
  predict_single m features
    = ["O"; "B-PROF"; "I-PROF"; "L-PROF"; "O"; "U-CC"] ->
  utmapping self !! "PROF" = Some "Professor" ->
  utmapping self !! "CC" = Some "Course Code" ->
  find_entities_in_text Model predict_single pos_tag self text
    = Returned [mkEntity "John A Smith" "Professor";
                mkEntity "CS101" "Course Code"].
Proof.
  intros Htoks Hfeat Hmodel Hpred Hprof Hcc.
  unfold find_entities_in_text.
  rewrite Hfeat, Hmodel, Hpred, Htoks.
  cbn -[lookup]. unfold append_entity.
  change (PyStr.drop 2 "B-PROF") with "PROF".
  rewrite Hprof. cbn -[lookup].
  change (PyStr.drop 2 "U-CC") with "CC".
  unfold append_entity. rewrite Hcc. reflexivity.
Qed.

Lemma extraction_of_professor_and_course_code_witness :
  find_entities_in_text unit
    (fun _ _ => ["O"; "B-PROF"; "I-PROF"; "L-PROF"; "O"; "U-CC"])
    (fun _ => [unlabelled_token "the" "DT"; unlabelled_token "John" "NNP";
               unlabelled_token "A" "NNP"; unlabelled_token "Smith" "NNP";
               unlabelled_token "teaches" "VBZ"; unlabelled_token "CS101" "NNP"])
    (mkNerTagger unit
       [("PROF", "Professor"); ("CC", "Course Code")]
       (mkTagger unit ∅ (Some []) [] (Some tt) None None)
       (<["CC" := "Course Code"]> (<["PROF" := "Professor"]> ∅)))
    "the John A Smith teaches CS101"
  = Returned [mkEntity "John A Smith" "Professor";
              mkEntity "CS101" "Course Code"].
Proof.
  eapply (extraction_of_professor_and_course_code unit _ _ _ _ tt).
  - reflexivity.
  - reflexivity.
  - reflexivity.
  - reflexivity.
  - vm_compute. reflexivity.
  - vm_compute. reflexivity.
Defined.

(** A Unit tag met while tokens are pending: the pending tokens are
    dropped, only the single-token entity is appended, and the scan goes on
    with an empty buffer. *)
Lemma unit_step_drops_pending (um : gmap string string) (text t : string)
    (rest : list (string * string)) (curr_ent : string)
    (ent_toks : list string) (entities : list Entity) :
  scan_entities um ((text, "U-" ++ t) :: rest) curr_ent ent_toks entities
  = (entities' ← append_entity um text t entities;
     scan_entities um rest t [] entities').
Proof.
  cbn [scan_entities]. simpl PyStr.startswith.
  change ("U-" ++ t) with (String "U" (String "-" t)).
  rewrite drop2_prefixed. reflexivity.
Qed.

(** C4 (the code departs from the claim): after [B-PROF] on "John" the
    buffer is open, and the [U-CC] on "CS101" that follows leaves the
    single entity "CS101"; the pending "John" is not flushed as an entity,
    although the [B-] and [O] branches flush a pending buffer. *)
Theorem unit_after_open_begin_loses_span :
  let um : gmap string string :=
    <["CC" := "Course Code"]> (<["PROF" := "Professor"]> ∅) in
  scan_entities um [("John", "B-PROF"); ("CS101", "U-CC")] "O" [] []
    = Some [mkEntity "CS101" "Course Code"] /\
  scan_entities um [("John", "B-PROF"); ("CS101", "B-CC")] "O" [] []
    = Some [mkEntity "John" "Professor"; mkEntity "CS101" "Course Code"] /\
  scan_entities um [("John", "B-PROF"); ("and", "O")] "O" [] []
    = Some [mkEntity "John" "Professor"].
Proof. repeat split; vm_compute; reflexivity. Qed.

(** ** Tag vocabulary and display colors *)

Lemma list_of_colors_length : length list_of_colors = 20%nat.
Proof. reflexivity. Qed.

(** C5 as stated fails: with twenty-one tags, one more than the twenty
    colors, [NerTagger.__init__] raises nothing and returns the session. *)
Lemma session_with_21_tags_is_constructed :
  (length list_of_colors < length twenty_one_tags)%nat /\
  exists self : NerTagger unit,
    NerTagger_init unit sample_pos_tag (Some main_texts) twenty_one_tags
    = Returned self.
Proof. split; [simpl; lia | eexists; reflexivity]. Qed.

(** C5 (amended): with more tags than colors the constructor still returns
    the session, holding the tags unchanged; the overflow is reported when
    the page is rendered, where [_render_app_template] returns the text
    "Too many tags. Add more colors to list_of_colors" in place of the
    page. *)
Theorem tag_overflow_reported_by_render
    (Model : Type) (pos_tag : string -> list Token)
    (template_render : list (string * string) -> list (string * string) -> string)
    (dataset : option (list string)) (tags : list (string * string)) :
  (length list_of_colors < length tags)%nat ->
  exists self : NerTagger Model,
    NerTagger_init Model pos_tag dataset tags = Returned self /\
    unique_tags self = tags /\
    base_app Model template_render self = Returned too_many_tags.
Proof.
  intros H. eexists. split; [reflexivity|]. split; [reflexivity|].
  unfold base_app, _render_app_template. cbn [unique_tags].
  apply Nat.ltb_lt in H. rewrite H. reflexivity.
Qed.

Lemma tag_overflow_reported_by_render_witness :
  exists self : NerTagger unit,
    NerTagger_init unit sample_pos_tag (Some main_texts) twenty_one_tags
    = Returned self /\
    unique_tags self = twenty_one_tags /\
    base_app unit (fun _ _ => "page") self = Returned too_many_tags.
Proof.
  apply (tag_overflow_reported_by_render unit sample_pos_tag
           (fun _ _ => "page") (Some main_texts) twenty_one_tags).
  simpl. lia.
Defined.

(** ** The pools of the controller *)

Lemma corrected_tokens_total (raw : list Token) (data : list (string * string)) :
  length data = length raw ->
  exists toret, corrected_tokens raw data = Some toret /\
                length toret = length raw.
Proof.
  intros Hlen. unfold corrected_tokens.
  destruct (mapM_total
              (fun index : nat =>
                 t ← raw !! index;
                 d ← data !! index;
                 Some (mkToken (tok_word t) (tok_pos t) (Some d.2)))
              (seq 0 (length data))) as [toret Ht].
  - intros i Hi. apply elem_of_seq in Hi.
    destruct (lookup_lt_is_Some_2 raw i) as [t ->]; [lia|].
    destruct (lookup_lt_is_Some_2 data i) as [d ->]; [lia|].
    simpl. eauto.
  - exists toret. split; [exact Ht|].
    apply length_mapM in Ht. rewrite length_seq in Ht. lia.
Qed.

(** C7: a correction whose length differs from the current example's
    token count makes [save_example] return [False] and leaves the whole
    tagger, pools, current-selection slot and the example's tokens and
    features, as it was. *)
Theorem save_example_rejects_length_mismatch
    (Model : Type) (s : Tagger Model) (data : list (string * string))
    (a : nat) (ex : Example) :
  current_example s = Some a ->
  heap s !! a = Some ex ->
  length data <> length (ex_raw ex) ->
  save_example Model data s = (Returned RFalse, s).
Proof.
  intros Hc Hh Hlen. unfold save_example. rewrite Hc, Hh.
  destruct (Nat.eqb_spec (length data) (length (ex_raw ex))) as [E|E];
    [contradiction|reflexivity].
Qed.

Lemma save_example_rejects_length_mismatch_witness :
  save_example unit [("text", "O")] sample_tagger
  = (Returned RFalse, sample_tagger).
Proof.
  apply (save_example_rejects_length_mismatch unit sample_tagger
           [("text", "O")] 0%nat
           (mkExample [unlabelled_token "text" "NN"; unlabelled_token "one" "NN"]
                      None)).
  - reflexivity.
  - vm_compute. reflexivity.
  - simpl. lia.
Defined.

(** C10: an accepted correction (same length as the current example, the
    current index a position of the Unlabeled Pool) makes [save_example]
    append one reference to the Labeled Pool and remove one position from
    the Unlabeled Pool, so the two sizes keep their sum. *)
Theorem save_example_moves_one_example
    (Model : Type) (s : Tagger Model) (data : list (string * string))
    (a : nat) (ex : Example) (i : Z) (pool : list nat) :
  current_example s = Some a ->
  heap s !! a = Some ex ->
  length data = length (ex_raw ex) ->
  current_example_index s = Some i ->
  unlabelled s = Some pool ->
  0 <= i < Z.of_nat (length pool) ->
  exists (s' : Tagger Model) (pool' : list nat),
    save_example Model data s = (Returned RNone, s') /\
    labelled s' = (labelled s ++ [a])%list /\
    unlabelled s' = Some pool' /\
    pool' = delete (Z.to_nat i) pool /\
    (length (labelled s') = length (labelled s) + 1)%nat /\
    (length pool' + 1 = length pool)%nat /\
    (length (labelled s') + length pool'
     = length (labelled s) + length pool)%nat.
Proof.
  intros Hc Hh Hlen Hi Hu Hrange. unfold save_example. rewrite Hc, Hh.
  destruct (Nat.eqb_spec (length data) (length (ex_raw ex))) as [E|E];
    [|contradiction].
  cbn [negb].
  destruct (corrected_tokens_total (ex_raw ex) data Hlen) as (toret & -> & _).
  destruct (_sent2features_total toret) as [f ->].
  cbn [current_example_index unlabelled set_labelled set_heap].
  rewrite Hi, Hu. unfold py_pop.
  assert (H0 : (0 <=? i) && (i <? Z.of_nat (length pool)) = true).
  { apply andb_true_intro. split; [apply Z.leb_le|apply Z.ltb_lt]; lia. }
  rewrite H0.
  assert (Hdel : (length (delete (Z.to_nat i) pool) + 1 = length pool)%nat).
  { rewrite length_delete; [lia|]. apply lookup_lt_is_Some_2. lia. }
  eexists _, (delete (Z.to_nat i) pool).
  split; [reflexivity|].
  cbn [labelled unlabelled set_unlabelled set_labelled set_heap].
  rewrite length_app. simpl length.
  repeat split; lia.
Qed.

Lemma save_example_moves_one_example_witness :
  exists (s' : Tagger unit) (pool' : list nat),
    save_example unit [("text", "O"); ("one", "U-CT")] sample_tagger
    = (Returned RNone, s') /\
    labelled s' = (labelled sample_tagger ++ [0%nat])%list /\
    unlabelled s' = Some pool' /\
    pool' = delete (Z.to_nat 0) [0%nat; 1%nat] /\
    (length (labelled s') = length (labelled sample_tagger) + 1)%nat /\
    (length pool' + 1 = length [0%nat; 1%nat])%nat /\
    (length (labelled s') + length pool'
     = length (labelled sample_tagger) + length [0%nat; 1%nat])%nat.
Proof.
  apply (save_example_moves_one_example unit sample_tagger
           [("text", "O"); ("one", "U-CT")] 0%nat
           (mkExample [unlabelled_token "text" "NN"; unlabelled_token "one" "NN"]
                      None)
           0 [0%nat; 1%nat]).
  - reflexivity.
  - vm_compute. reflexivity.
  - reflexivity.
  - reflexivity.
  - reflexivity.
  - simpl. lia.
Defined.

(** ** The subsample of the query regime *)

Lemma query_sample_of_many (rng : Rng) (n : nat) :
  (2 <= n)%nat ->
  query_sample rng n
  = Some (map (fun k => 0 + rng k `mod` (Z.of_nat n - 1 - 0)) (seq 0 250)).
Proof.
  intros Hn. unfold query_sample, np_random_randint.
  destruct (Nat.eqb_spec n 1) as [E|E]; [lia|].
  destruct (Z.ltb_spec 0 (Z.of_nat n - 1)) as [L|L]; [reflexivity|lia].
Qed.

Lemma query_sample_of_one (rng : Rng) : query_sample rng 1 = Some [0].
Proof. reflexivity. Qed.

(** C2 as stated fails on a pool of three examples: no random source puts
    the last index 2 into the subsample, and the subsample is never the
    whole pool [0, 1, 2]. *)
Lemma last_index_of_three_never_sampled :
  ~ (exists (rng : Rng) (sample : list Z),
       query_sample rng 3 = Some sample /\ In 2 sample) /\
  ~ (exists rng : Rng, query_sample rng 3 = Some [0; 1; 2]).
Proof.
  split.
  - intros (rng & sample & Hs & Hin).
    rewrite query_sample_of_many in Hs by lia.
    apply (inj Some) in Hs. subst sample.
    apply in_map_iff in Hin as (k & Hk & _).
    pose proof (Z.mod_pos_bound (rng k) (Z.of_nat 3 - 1 - 0)) as Hb.
    lia.
  - intros (rng & Hs).
    rewrite query_sample_of_many in Hs by lia.
    apply (inj Some) in Hs.
    apply (f_equal (@length Z)) in Hs.
    rewrite length_map, length_seq in Hs. discriminate Hs.
Qed.

(** C2 (amended): on a non-empty pool the subsample of [query_new_example]
    is [0] alone when the pool has one example, and otherwise 250 positions
    drawn with replacement, whatever the size of the pool; every drawn
    position is a position of the pool. *)
Theorem query_sample_draws (rng : Rng) (n : nat) :
  (1 <= n)%nat ->
  exists sample : list Z,
    query_sample rng n = Some sample /\
    (n = 1%nat -> sample = [0]) /\
    ((2 <= n)%nat -> length sample = 250%nat) /\
    Forall (fun i => 0 <= i < Z.of_nat n) sample.
Proof.
  intros Hn. destruct (Nat.eq_dec n 1%nat) as [->|Hne].
  - exists [0]. split; [reflexivity|]. split; [reflexivity|].
    split; [lia|]. constructor; [lia|constructor].
  - eexists. split; [apply query_sample_of_many; lia|].
    split; [intros ?; contradiction|].
    split; [intros _; rewrite length_map, length_seq; reflexivity|].
    apply Forall_forall. intros i Hi.
    apply list_elem_of_In in Hi. apply in_map_iff in Hi as (k & <- & _).
    pose proof (Z.mod_pos_bound (rng k) (Z.of_nat n - 1 - 0)) as Hb.
    lia.
Qed.

Lemma query_sample_draws_witness :
  exists sample : list Z,
    query_sample (fun k => Z.of_nat k) 3 = Some sample /\
    (3%nat = 1%nat -> sample = [0]) /\
    ((2 <= 3)%nat -> length sample = 250%nat) /\
    Forall (fun i => 0 <= i < Z.of_nat 3) sample.
Proof.
  apply (query_sample_draws (fun k => Z.of_nat k) 3). lia.
Defined.

(** The sibling bootstrap selection draws with [random.randint], whose
    upper end is included: there the last index of the pool is eligible. *)
Lemma random_randint_reaches_last (n : nat) :
  (1 <= n)%nat ->
  random_randint (fun _ => Z.of_nat n - 1) 0 (Z.of_nat n - 1)
  = Some (Z.of_nat n - 1).
Proof.
  intros Hn. unfold random_randint.
  destruct (Z.leb_spec 0 (Z.of_nat n - 1)) as [L|L]; [|lia].
  f_equal. rewrite Z.mod_small; lia.
Qed.

(** The example that [query_new_example] makes current sits at a position
    taken from that subsample. *)
Lemma query_new_example_selects_from_sample
    (Model : Type) (predict_single : Model -> list Features -> list string)
    (predict_marginals :
       Model -> list (list Features) -> list (list Scorer.Marginals))
    (entropy : list float -> float)
    (mode : string) (rng : Rng) (s s' : Tagger Model) (pool : list nat)
    (toret : list Token) :
  unlabelled s = Some pool ->
  query_new_example Model predict_single predict_marginals entropy mode rng s
  = (Returned toret, s') ->
  exists (sample : list Z) (i : Z),
    query_sample rng (length pool) = Some sample /\
    i ∈ sample /\
    current_example_index s' = Some i.
Proof.
  intros Hu H. unfold query_new_example in H. rewrite Hu in H.
  destruct (query_sample rng (length pool)) as [sample|]; [|discriminate H].
  destruct (collect_features pool sample (heap s)) as [X h].
  repeat (match type of H with
          | context [match ?x with _ => _ end] =>
              let E := fresh "E" in destruct x eqn:E
          end; try discriminate H).
  injection H as _ <-.
  eexists sample, _. split; [reflexivity|]. split; [|reflexivity].
  eapply list_elem_of_lookup_2. eassumption.
Qed.

(** ** The order of binary64 numbers *)

Ltac sf_cmp :=
  repeat match goal with
         | |- context [Z.compare ?a ?b] => destruct (Z.compare_spec a b)
         | H : context [Z.compare ?a ?b] |- _ => destruct (Z.compare_spec a b)
         | |- context [PosDef.Pos.compare_cont Eq ?a ?b] =>
             change (PosDef.Pos.compare_cont Eq a b) with (Pos.compare a b);
             destruct (Pos.compare_spec a b)
         | H : context [PosDef.Pos.compare_cont Eq ?a ?b] |- _ =>
             change (PosDef.Pos.compare_cont Eq a b) with (Pos.compare a b) in H;
             destruct (Pos.compare_spec a b)
         end.

Ltac sf_cases :=
  repeat match goal with s : bool |- _ => destruct s end;
  cbn; try discriminate; try reflexivity;
  sf_cmp; cbn; try discriminate; try reflexivity; subst; try lia.

Lemma SFleb_trans (a b c : spec_float) :
  SFleb a b = true -> SFleb b c = true -> SFleb a c = true.
Proof.
  unfold SFleb.
  destruct a as [sa|sa| |sa ma ea], b as [sb|sb| |sb mb eb],
           c as [sc|sc| |sc mc ec]; cbn [SFcompare];
    try discriminate; try reflexivity; sf_cases.
Qed.



Lemma SFltb_leb (a b : spec_float) : SFltb a b = true -> SFleb a b = true.
Proof.
  unfold SFleb, SFltb. destruct (SFcompare a b) as [[| |]|];
    try discriminate; reflexivity.
Qed.


Lemma SFltb_total (a b : spec_float) :
  SFeqb a a = true -> SFeqb b b = true ->
  SFltb a b = false -> SFleb b a = true.
Proof.
  unfold SFleb, SFltb, SFeqb.
  destruct a as [sa|sa| |sa ma ea], b as [sb|sb| |sb mb eb];
    cbn [SFcompare]; try discriminate; try reflexivity; sf_cases.
Qed.

Lemma SFleb_refl (a : spec_float) : SFeqb a a = true -> SFleb a a = true.
Proof.
  unfold SFleb, SFeqb. destruct (SFcompare a a) as [[| |]|];
    try discriminate; reflexivity.
Qed.

Lemma SFleb_not_nan (a b : spec_float) :
  SFleb a b = true -> SFeqb a a = true /\ SFeqb b b = true.
Proof.
  unfold SFleb, SFeqb.
  destruct a as [sa|sa| |sa ma ea], b as [sb|sb| |sb mb eb];
    cbn [SFcompare]; try discriminate; intros _; split;
    try reflexivity; sf_cases.
Qed.

Section FloatOrder.

Local Open Scope float_scope.

Lemma is_nan_false (x : float) :
  is_nan x = false <-> SFeqb (Prim2SF x) (Prim2SF x) = true.
Proof.
  unfold is_nan. rewrite FloatAxioms.eqb_spec.
  destruct (SFeqb (Prim2SF x) (Prim2SF x)); simpl; split; congruence.
Qed.

Lemma float_leb_trans (x y z : float) :
  (x <=? y) = true -> (y <=? z) = true -> (x <=? z) = true.
Proof. rewrite !FloatAxioms.leb_spec. apply SFleb_trans. Qed.



Lemma float_ltb_leb (x y : float) : (x <? y) = true -> (x <=? y) = true.
Proof. rewrite FloatAxioms.leb_spec, FloatAxioms.ltb_spec. apply SFltb_leb. Qed.


Lemma float_ltb_total (x y : float) :
  is_nan x = false -> is_nan y = false ->
  (x <? y) = false -> (y <=? x) = true.
Proof.
  rewrite !is_nan_false, FloatAxioms.leb_spec, FloatAxioms.ltb_spec. apply SFltb_total.
Qed.

Lemma float_leb_refl (x : float) : is_nan x = false -> (x <=? x) = true.
Proof. rewrite is_nan_false, FloatAxioms.leb_spec. apply SFleb_refl. Qed.

Lemma float_leb_not_nan (x y : float) :
  (x <=? y) = true -> is_nan x = false /\ is_nan y = false.
Proof. rewrite !is_nan_false, FloatAxioms.leb_spec. apply SFleb_not_nan. Qed.

End FloatOrder.

(** ** Uncertainty scorer *)

Section ScorerProperties.

Import Scorer.
Local Open Scope float_scope.

Lemma pymax_spec (l : list float) (x : float) :
  Forall (fun e => is_nan e = false) (x :: l) ->
  In (pymax x l) (x :: l) /\
  Forall (fun e => (e <=? pymax x l) = true) (x :: l).
Proof.
  revert x. induction l as [|y l IH]; intros x Hn.
  - split; [left; reflexivity|].
    constructor; [|constructor]. apply float_leb_refl.
    exact (Forall_inv Hn).
  - pose proof (Forall_inv Hn) as Hx.
    pose proof (Forall_inv (Forall_inv_tail Hn)) as Hy.
    pose proof (Forall_inv_tail (Forall_inv_tail Hn)) as Hl.
    change (pymax x (y :: l)) with (pymax (if x <? y then y else x) l).
    destruct (x <? y) eqn:Hxy.
    + destruct (IH y) as [Hin Hub]; [constructor; assumption|].
      split; [right; exact Hin|].
      constructor; [|exact Hub].
      apply float_leb_trans with y;
        [apply float_ltb_leb; exact Hxy|exact (Forall_inv Hub)].
    + destruct (IH x) as [Hin Hub]; [constructor; assumption|].
      split.
      * destruct Hin as [Hin|Hin]; [left; exact Hin|right; right; exact Hin].
      * constructor; [exact (Forall_inv Hub)|].
        constructor; [|exact (Forall_inv_tail Hub)].
        apply float_leb_trans with x;
          [apply float_ltb_total; assumption|exact (Forall_inv Hub)].
Qed.

End ScorerProperties.

Section EntropyFormula.

Import Scorer.
Local Open Scope R_scope.

Lemma fold_left_Rplus_acc (l : list R) (a : R) :
  fold_left Rplus l a = a + fold_left Rplus l 0.
Proof.
  revert a. induction l as [|x l IH]; intros a; simpl.
  - lra.
  - rewrite (IH (a + x)), (IH (0 + x)). lra.
Qed.

Lemma rsum_cons (x : R) (l : list R) : rsum (x :: l) = x + rsum l.
Proof. unfold rsum. simpl. rewrite fold_left_Rplus_acc. lra. Qed.

Lemma rsum_nil : rsum [] = 0.
Proof. reflexivity. Qed.

Lemma rsum_Permutation (l l' : list R) :
  Permutation l l' -> rsum l = rsum l'.
Proof.
  induction 1 as [|x l l' _ IH|x y l|l l' l'' _ IH1 _ IH2].
  - reflexivity.
  - rewrite !rsum_cons, IH. reflexivity.
  - rewrite !rsum_cons. lra.
  - congruence.
Qed.

Lemma entropy_formula_Permutation (pk pk' : list R) :
  Permutation pk pk' -> entropy_formula pk = entropy_formula pk'.
Proof.
  intros HP. unfold entropy_formula.
  rewrite (rsum_Permutation pk pk' HP).
  apply rsum_Permutation. apply Permutation_map. exact HP.
Qed.

Lemma rsum_map_opp (f : R -> R) (l : list R) :
  rsum (map (fun p => - f p) l) = - rsum (map f l).
Proof.
  induction l as [|x l IH]; simpl.
  - rewrite rsum_nil. lra.
  - rewrite !rsum_cons, IH. lra.
Qed.

(** [entropy_formula] is the standard formula on the normalised values. *)
Lemma entropy_formula_is_shannon_of_normalised (pk : list R) :
  entropy_formula pk = shannon (map (fun p => p / rsum pk) pk).
Proof.
  unfold entropy_formula, shannon, entr. cbv zeta.
  rewrite map_map.
  rewrite <- (rsum_map_opp (fun p => p / rsum pk * ln (p / rsum pk)) pk).
  f_equal. apply map_ext. intros p. lra.
Qed.

Lemma entropy_formula_is_shannon (pk : list R) :
  rsum pk = 1 -> entropy_formula pk = shannon pk.
Proof.
  intros H1. rewrite entropy_formula_is_shannon_of_normalised, H1.
  f_equal. rewrite <- (map_id pk) at 2. apply map_ext. intros p. lra.
Qed.

Lemma entropy_formula_of_certain : entropy_formula [1] = 0.
Proof.
  unfold entropy_formula, entr. cbv zeta. simpl map.
  rewrite !rsum_cons, rsum_nil.
  replace (1 / (1 + 0)) with 1 by lra.
  rewrite ln_1. lra.
Qed.

End EntropyFormula.

Section ScorerContract.

Import Scorer.
Local Open Scope float_scope.

(** C6, as stated, fails on its last figure: in the double arithmetic of
    the program the mean of the entropies [0, 0, 1.2] is
    [(0 + 0 + 0 + 1.2) / 3 = 0.39999999999999997], which is not the double
    [0.4] but the one below it. *)
Lemma mean_of_sample_entropies_is_below_two_fifths :
  reduce_uncertainty 0 [0; 1.2] "mean" = Some 0.39999999999999997 /\
  reduce_uncertainty 0 [0; 1.2] "mean" <> Some 0.4 /\
  (0.39999999999999997 <? 0.4) = true /\
  PrimFloat.next_up 0.39999999999999997 = 0.4.
Proof.
  split; [reflexivity|]. split; [|split; reflexivity].
  intros H. apply (inj Some) in H.
  discriminate (f_equal (fun x => x =? 0.4) H).
Qed.

(** C6 (amended): on a non-empty example the scorer calls
    [scipy.stats.entropy] on the probability values of each token, in
    the order of the token's mapping, and reduces the results in double
    arithmetic: [mode = "max"] returns one of them that no other exceeds
    (when none is NaN), [mode = "mean"] returns their left-to-right sum
    divided by their number; the entropies [0, 0, 1.2] reduce to [1.2]
    and to [0.39999999999999997]; an example without tokens scores [0].
    The documented formula of the library function is, in exact
    arithmetic, the base-e Shannon entropy of the normalised values,
    which a permutation of the labels does not change and which is [0]
    for the distribution {A: 1.0}. *)
Theorem uncertainty_scorer_contract
    (entropy : list float -> float) (tok : Marginals) (toks : list Marginals) :
  Forall (fun t => is_nan (entropy (map snd t)) = false) (tok :: toks) ->
  let un := map (fun t => entropy (map snd t)) (tok :: toks) in
  (exists m, _get_prediction_uncertainity entropy (tok :: toks) "max" = Some m /\
             In m un /\ Forall (fun e => (e <=? m) = true) un) /\
  _get_prediction_uncertainity entropy (tok :: toks) "mean"
    = Some (fold_left PrimFloat.add un 0 / float_of_len (length un)) /\
  (forall mode,
     _get_prediction_uncertainity entropy (tok :: toks) mode
     = reduce_uncertainty (entropy (map snd tok))
                          (map (fun t => entropy (map snd t)) toks) mode) /\
  reduce_uncertainty 0 [0; 1.2] "max" = Some 1.2 /\
  reduce_uncertainty 0 [0; 1.2] "mean" = Some 0.39999999999999997 /\
  (forall mode, _get_prediction_uncertainity entropy [] mode = Some 0) /\
  (forall t : list (string * R),
     entropy_formula (map snd t)
     = shannon (map (fun p => (p / rsum (map snd t))%R) (map snd t))) /\
  (forall t t' : list (string * R),
     Permutation t t' ->
     entropy_formula (map snd t) = entropy_formula (map snd t')) /\
  entropy_formula (map snd [("A", 1%R)]) = 0%R.
Proof.
  intros Hn un.
  assert (Hn' : Forall (fun e => is_nan e = false) un).
  { unfold un. apply Forall_map. exact Hn. }
  split.
  { exists (pymax (entropy (map snd tok))
                  (map (fun t => entropy (map snd t)) toks)).
    split; [reflexivity|]. apply pymax_spec. exact Hn'. }
  split; [reflexivity|].
  split; [reflexivity|].
  split; [reflexivity|].
  split; [reflexivity|].
  split; [reflexivity|].
  split; [intros t; apply entropy_formula_is_shannon_of_normalised|].
  split.
  { intros t t' HP. apply entropy_formula_Permutation.
    apply Permutation_map. exact HP. }
  apply entropy_formula_of_certain.
Qed.

Lemma uncertainty_scorer_contract_witness :
  let tok : Marginals := [("O", 1)] in
  let toks : list Marginals := [[("B-CC", 0.5); ("O", 0.5)]; [("O", 1)]] in
  let un := map (fun t => sample_entropy (map snd t)) (tok :: toks) in
  un = [0; 0.6931471805599453; 0] /\
  (exists m, _get_prediction_uncertainity sample_entropy (tok :: toks) "max"
             = Some m /\
             In m un /\ Forall (fun e => (e <=? m) = true) un) /\
  _get_prediction_uncertainity sample_entropy (tok :: toks) "mean"
    = Some (fold_left PrimFloat.add un 0 / float_of_len (length un)) /\
  (forall mode,
     _get_prediction_uncertainity sample_entropy (tok :: toks) mode
     = reduce_uncertainty (sample_entropy (map snd tok))
                          (map (fun t => sample_entropy (map snd t)) toks)
                          mode) /\
  reduce_uncertainty 0 [0; 1.2] "max" = Some 1.2 /\
  reduce_uncertainty 0 [0; 1.2] "mean" = Some 0.39999999999999997 /\
  (forall mode, _get_prediction_uncertainity sample_entropy [] mode = Some 0) /\
  (forall t : list (string * R),
     entropy_formula (map snd t)
     = shannon (map (fun p => (p / rsum (map snd t))%R) (map snd t))) /\
  (forall t t' : list (string * R),
     Permutation t t' ->
     entropy_formula (map snd t) = entropy_formula (map snd t')) /\
  entropy_formula (map snd [("A", 1%R)]) = 0%R.
Proof.
  intros tok toks un. split; [reflexivity|].
  apply (uncertainty_scorer_contract sample_entropy tok toks).
  repeat constructor.
Defined.

End ScorerContract.

(** ** BILOU codec *)

(** C1 (the code departs from the claim): the empty token sequence, whose
    label sequence is valid, has no markup: [ex[0]] raises [IndexError]
    before anything is encoded, so there is nothing to decode. *)
Theorem empty_example_is_not_encoded :
  ValidBILOU [] /\ _generate_html_from_example [] = None.
Proof. split; [constructor|reflexivity]. Qed.

Lemma assign_tags_inside (k : nat) (t : string) (inside tail : list Token) :
  Forall (fun tk => tok_label tk = Some ("I-" ++ t)) inside ->
  assign_tags k (inside ++ tail)%list
  = (spans ← assign_tags k tail;
     Some (map (fun x => tagged_span x k t) (map tok_word inside) ++ spans)%list).
Proof.
  induction 1 as [|tk inside Hl _ IH]; simpl.
  - destruct (assign_tags k tail); reflexivity.
  - rewrite Hl. simpl. rewrite IH.
    change ("I-" ++ t) with (String "I" (String "-" t)).
    rewrite drop2_prefixed.
    destruct (assign_tags k tail); reflexivity.
Qed.

Lemma tagged_pairs_inside (t : string) (inside : list Token) :
  Forall (fun tk => tok_label tk = Some ("I-" ++ t)) inside ->
  tagged_pairs inside
  = map (fun x => (x, ("I-" ++ t)%string)) (map tok_word inside).
Proof.
  induction 1 as [|tk inside Hl _ IH]; [reflexivity|].
  unfold tagged_pairs in *. simpl. rewrite Hl, IH. reflexivity.
Qed.

(** Encoding a valid sequence gives grouped markup for its labels. *)
Lemma assign_tags_grouped (ex : list Token) :
  ValidBILOU ex ->
  forall k, exists spans,
    assign_tags k ex = Some spans /\ Grouped k spans (tagged_pairs ex).
Proof.
  induction 1 as [|w p rest _ IH|w p t rest _ IH
                  |w p t inside wl pl rest Hin _ IH]; intros k.
  - exists []. split; [reflexivity|constructor].
  - destruct (IH k) as (spans & Hs & G).
    exists (plain_span w :: spans). split.
    + simpl. rewrite Hs. reflexivity.
    + apply grouped_plain. exact G.
  - destruct (IH (S k)) as (spans & Hs & G).
    exists (tagged_span w k t :: spans). split.
    + simpl. rewrite Hs. simpl.
      change ("U-" ++ t) with (String "U" (String "-" t)).
      rewrite drop2_prefixed. reflexivity.
    + apply grouped_unit. exact G.
  - destruct (IH (S k)) as (spans & Hs & G).
    exists (tagged_span w k t
              :: map (fun x => tagged_span x k t) (map tok_word inside)
              ++ tagged_span wl k t :: spans)%list.
    split.
    + cbn [assign_tags labelled_token tok_label tok_word].
      simpl PyStr.first. cbn [mbind option_bind].
      simpl char_in. cbv iota.
      rewrite (assign_tags_inside k t inside _ Hin).
      simpl. rewrite Hs. simpl.
      change ("B-" ++ t) with (String "B" (String "-" t)).
      change ("L-" ++ t) with (String "L" (String "-" t)).
      rewrite !drop2_prefixed. reflexivity.
    + unfold tagged_pairs. simpl map. rewrite map_app. simpl map.
      fold (tagged_pairs inside). fold (tagged_pairs rest).
      rewrite (tagged_pairs_inside t inside Hin).
      apply grouped_span. exact G.
Qed.

(** *** Reading positions of a list that is split in two *)

Lemma py_index_app_r {A} (P S : list A) (j : nat) :
  py_index (P ++ S)%list (Z.of_nat (length P) + Z.of_nat j) = S !! j.
Proof.
  unfold py_index.
  destruct (Z.leb_spec 0 (Z.of_nat (length P) + Z.of_nat j)) as [_|L]; [|lia].
  replace (Z.to_nat (Z.of_nat (length P) + Z.of_nat j))
    with (length P + j)%nat by lia.
  rewrite lookup_app_r by lia. f_equal. lia.
Qed.

Lemma py_index_app_head {A} (P S : list A) (x : A) :
  py_index (P ++ x :: S)%list (Z.of_nat (length P)) = Some x.
Proof.
  replace (Z.of_nat (length P)) with (Z.of_nat (length P) + Z.of_nat 0) by lia.
  rewrite py_index_app_r. reflexivity.
Qed.

Lemma mapM_seq_lookup {A B} (f : nat -> option B) (g : A -> B)
    (mid : list A) (start : nat) :
  (forall i x, mid !! i = Some x -> f (start + i)%nat = Some (g x)) ->
  mapM f (seq start (length mid)) = Some (map g mid).
Proof.
  revert start. induction mid as [|x mid IH]; intros start H.
  - reflexivity.
  - simpl. rewrite <- (Nat.add_0_r start) at 1.
    rewrite (H 0%nat x eq_refl). simpl.
    rewrite (IH (S start)); [reflexivity|].
    intros i y Hy. replace (S start + i)%nat with (start + S i)%nat by lia.
    apply H. exact Hy.
Qed.

(** *** Counting identifiers *)

Lemma counter_get_app (l1 l2 : list nat) (k : nat) :
  counter_get (l1 ++ l2) k = counter_get l1 k + counter_get l2 k.
Proof. unfold counter_get. rewrite filter_app, length_app. lia. Qed.

Lemma counter_get_cons_same (l : list nat) (k : nat) :
  counter_get (k :: l) k = 1 + counter_get l k.
Proof.
  unfold counter_get. rewrite filter_cons_True by reflexivity.
  simpl length. lia.
Qed.

Lemma counter_get_below (l : list nat) (k : nat) :
  Forall (fun x => (x < k)%nat) l -> counter_get l k = 0.
Proof.
  induction 1 as [|x l Hx _ IH]; [reflexivity|].
  unfold counter_get in *. rewrite filter_cons_False by lia. exact IH.
Qed.

Lemma counter_get_above (l : list nat) (k : nat) :
  Forall (fun x => (k < x)%nat) l -> counter_get l k = 0.
Proof.
  induction 1 as [|x l Hx _ IH]; [reflexivity|].
  unfold counter_get in *. rewrite filter_cons_False by lia. exact IH.
Qed.

Lemma counter_get_run (ws : list string) (k : nat) (t : string) :
  counter_get (span_ids (map (fun x => tagged_span x k t) ws)) k
  = Z.of_nat (length ws).
Proof.
  induction ws as [|w ws IH]; [reflexivity|].
  change (span_ids (map (fun x => tagged_span x k t) (w :: ws)))
    with (k :: span_ids (map (fun x => tagged_span x k t) ws)).
  rewrite counter_get_cons_same, IH. simpl length. lia.
Qed.

Lemma span_ids_app (l1 l2 : list Span) :
  span_ids (l1 ++ l2) = (span_ids l1 ++ span_ids l2)%list.
Proof. unfold span_ids. apply omap_app. Qed.

Lemma span_ids_run_below (ws : list string) (k : nat) (t : string) :
  Forall (fun x => (x < S k)%nat) (span_ids (map (fun x => tagged_span x k t) ws)).
Proof.
  induction ws as [|w ws IH]; [constructor|].
  change (span_ids (map (fun x => tagged_span x k t) (w :: ws)))
    with (k :: span_ids (map (fun x => tagged_span x k t) ws)).
  constructor; [lia|exact IH].
Qed.

Lemma grouped_ids_from (k : nat) (spans : list Span)
    (tags : list (string * string)) :
  Grouped k spans tags -> Forall (fun x => (k <= x)%nat) (span_ids spans).
Proof.
  induction 1 as [k|k w spans tags _ IH|k w t spans tags _ IH
                  |k w t ws wl spans tags _ IH].
  - constructor.
  - exact IH.
  - change (span_ids (tagged_span w k t :: spans)) with (k :: span_ids spans).
    constructor; [lia|]. eapply Forall_impl; [exact IH|]. simpl. lia.
  - change (span_ids (tagged_span w k t
                        :: map (fun x => tagged_span x k t) ws
                        ++ tagged_span wl k t :: spans)%list)
      with (k :: span_ids (map (fun x => tagged_span x k t) ws
                           ++ tagged_span wl k t :: spans)%list).
    rewrite span_ids_app.
    change (span_ids (tagged_span wl k t :: spans)) with (k :: span_ids spans).
    constructor; [lia|]. apply Forall_app. split.
    + clear. induction ws as [|x ws IHw]; [constructor|].
      change (span_ids (map (fun x => tagged_span x k t) (x :: ws)))
        with (k :: span_ids (map (fun x => tagged_span x k t) ws)).
      constructor; [lia|exact IHw].
    + constructor; [lia|]. eapply Forall_impl; [exact IH|]. simpl. lia.
Qed.

Lemma grouped_tag_ids (k : nat) (spans : list Span)
    (tags : list (string * string)) :
  Grouped k spans tags ->
  mapM data_tag_id (filter (fun it => _is_a_tag it = true) spans)
  = Some (span_ids spans).
Proof.
  assert (Hrun : forall (ws : list string) (k : nat) (t : string)
                        (rest : list Span) (ids : list nat),
    mapM data_tag_id (filter (fun it => _is_a_tag it = true) rest) = Some ids ->
    mapM data_tag_id
      (filter (fun it => _is_a_tag it = true)
              (map (fun x => tagged_span x k t) ws ++ rest)%list)
    = Some (span_ids (map (fun x => tagged_span x k t) ws) ++ ids)%list).
  { intros ws k0 t rest ids Hr. induction ws as [|x ws IHw]; [exact Hr|].
    simpl map. simpl app.
    rewrite filter_cons_True by reflexivity.
    simpl. rewrite IHw. reflexivity. }
  induction 1 as [k|k w spans tags _ IH|k w t spans tags _ IH
                  |k w t ws wl spans tags _ IH].
  - reflexivity.
  - rewrite filter_cons_False by (simpl; discriminate). exact IH.
  - rewrite filter_cons_True by reflexivity. simpl. rewrite IH. reflexivity.
  - rewrite filter_cons_True by reflexivity. simpl.
    rewrite (Hrun ws k t (tagged_span wl k t :: spans) (k :: span_ids spans)).
    + simpl. rewrite span_ids_app. reflexivity.
    + rewrite filter_cons_True by reflexivity. simpl. rewrite IH. reflexivity.
Qed.

(** *** The decoding loop on grouped markup *)

Lemma decode_loop_done (fuel : nat) (items : list Span) (ids : list nat)
    (index : Z) (acc : list (string * string)) :
  Z.of_nat (length items) <= index ->
  decode_loop fuel items ids index acc = Some (Returned acc).
Proof.
  intros H.
  destruct fuel; cbn [decode_loop];
    destruct (Z.ltb_spec index (Z.of_nat (length items))); try lia;
    reflexivity.
Qed.

Lemma inside_items_run (P : list Span) (b : Span) (mid rest : list Span)
    (tag : string) :
  inside_items (P ++ b :: mid ++ rest)%list (Z.of_nat (length P))
               (Z.of_nat (2 + length mid)) tag
  = Some (map (fun it => (span_text it, ("I-" ++ tag)%string)) mid).
Proof.
  unfold inside_items.
  replace (Z.to_nat (Z.of_nat (2 + length mid) - 2)) with (length mid) by lia.
  apply (mapM_seq_lookup _ (fun it => (span_text it, ("I-" ++ tag)%string))
                         mid 0%nat).
  intros i x Hx.
  replace (Z.of_nat (length P) + Z.of_nat (0 + i) + 1)
    with (Z.of_nat (length P) + Z.of_nat (S i)) by lia.
  rewrite py_index_app_r. simpl.
  rewrite lookup_app_l by (eapply lookup_lt_Some; exact Hx).
  rewrite Hx. reflexivity.
Qed.

Lemma decode_loop_grouped (k : nat) (S0 : list Span)
    (tags : list (string * string)) :
  Grouped k S0 tags ->
  forall (P : list Span) (acc : list (string * string)) (fuel : nat)
         (ids : list nat),
    ids = span_ids (P ++ S0) ->
    Forall (fun x => (x < k)%nat) (span_ids P) ->
    (length S0 <= fuel)%nat ->
    decode_loop fuel (P ++ S0)%list ids (Z.of_nat (length P)) acc
    = Some (Returned (acc ++ tags)%list).
Proof.
  induction 1 as [k|k w spans tags G IH|k w t spans tags G IH
                  |k w t ws wl spans tags G IH];
    intros P acc fuel ids Hids HP Hfuel.
  - rewrite decode_loop_done by (rewrite app_nil_r; lia).
    rewrite app_nil_r. reflexivity.
  - destruct fuel as [|fuel]; [simpl in Hfuel; lia|].
    cbn [decode_loop].
    assert (Hlt : (Z.of_nat (length P)
                   <? Z.of_nat (length (P ++ plain_span w :: spans))) = true).
    { apply Z.ltb_lt. rewrite length_app. simpl. lia. }
    rewrite Hlt, py_index_app_head. cbn [negb data_tag plain_span span_text].
    assert (Hsplit : (P ++ plain_span w :: spans
                      = (P ++ [plain_span w]) ++ spans)%list)
      by (rewrite <- app_assoc; reflexivity).
    rewrite Hsplit in *.
    replace (Z.of_nat (length P) + 1)
      with (Z.of_nat (length (P ++ [plain_span w])))
      by (rewrite length_app; simpl; lia).
    rewrite (IH _ _ fuel ids Hids).
    + rewrite <- app_assoc. reflexivity.
    + rewrite span_ids_app. simpl. rewrite app_nil_r. exact HP.
    + simpl in Hfuel. lia.
  - destruct fuel as [|fuel]; [simpl in Hfuel; lia|].
    cbn [decode_loop].
    assert (Hlt : (Z.of_nat (length P)
                   <? Z.of_nat (length (P ++ tagged_span w k t :: spans))) = true).
    { apply Z.ltb_lt. rewrite length_app. simpl. lia. }
    rewrite Hlt, py_index_app_head.
    cbn [negb data_tag data_tag_id tagged_span span_text].
    assert (Hc : counter_get ids k = 1).
    { rewrite Hids, span_ids_app.
      change (span_ids (tagged_span w k t :: spans)) with (k :: span_ids spans).
      rewrite counter_get_app, counter_get_cons_same.
      rewrite (counter_get_below _ _ HP).
      rewrite counter_get_above; [lia|].
      eapply Forall_impl; [apply (grouped_ids_from _ _ _ G)|]. simpl. lia. }
    rewrite Hc. change (1 =? 1) with true. cbv iota.
    assert (Hsplit : (P ++ tagged_span w k t :: spans
                      = (P ++ [tagged_span w k t]) ++ spans)%list)
      by (rewrite <- app_assoc; reflexivity).
    rewrite Hsplit in *.
    replace (Z.of_nat (length P) + 1)
      with (Z.of_nat (length (P ++ [tagged_span w k t])))
      by (rewrite length_app; simpl; lia).
    rewrite (IH _ _ fuel ids Hids).
    + rewrite <- app_assoc. reflexivity.
    + rewrite span_ids_app. apply Forall_app. split.
      * eapply Forall_impl; [exact HP|]. simpl. lia.
      * constructor; [lia|constructor].
    + simpl in Hfuel. lia.
  - set (mid := map (fun x => tagged_span x k t) ws) in *.
    assert (Hmid : length mid = length ws) by (unfold mid; apply length_map).
    destruct fuel as [|fuel]; [simpl in Hfuel; lia|].
    cbn [decode_loop].
    assert (Hlt : (Z.of_nat (length P)
                   <? Z.of_nat (length (P ++ tagged_span w k t
                                          :: mid ++ tagged_span wl k t :: spans)))
                  = true).
    { apply Z.ltb_lt. rewrite length_app. simpl. lia. }
    rewrite Hlt, py_index_app_head.
    cbn [negb data_tag data_tag_id tagged_span span_text].
    assert (Hc : counter_get ids k = Z.of_nat (2 + length mid)).
    { rewrite Hids, span_ids_app.
      change (span_ids (tagged_span w k t :: mid ++ tagged_span wl k t :: spans)%list)
        with (k :: span_ids (mid ++ tagged_span wl k t :: spans)%list).
      rewrite span_ids_app.
      change (span_ids (tagged_span wl k t :: spans)) with (k :: span_ids spans).
      rewrite counter_get_app, counter_get_cons_same, counter_get_app,
              counter_get_cons_same.
      rewrite (counter_get_below _ _ HP).
      unfold mid at 1. rewrite counter_get_run.
      rewrite counter_get_above; [lia|].
      eapply Forall_impl; [apply (grouped_ids_from _ _ _ G)|]. simpl. lia. }
    rewrite Hc.
    assert (Hlast : py_index (P ++ tagged_span w k t
                                :: mid ++ tagged_span wl k t :: spans)%list
                             (Z.of_nat (length P) + Z.of_nat (S (length mid)))
                    = Some (tagged_span wl k t)).
    { rewrite py_index_app_r. simpl.
      rewrite lookup_app_r by lia.
      rewrite Nat.sub_diag. reflexivity. }
    assert (Hsplit : (P ++ tagged_span w k t
                        :: mid ++ tagged_span wl k t :: spans
                      = (P ++ tagged_span w k t
                           :: mid ++ [tagged_span wl k t]) ++ spans)%list).
    { rewrite <- app_assoc. simpl. rewrite <- app_assoc. reflexivity. }
    assert (HP' : Forall (fun x => (x < S k)%nat)
                    (span_ids (P ++ tagged_span w k t
                                 :: mid ++ [tagged_span wl k t])%list)).
    { rewrite span_ids_app. apply Forall_app. split.
      - eapply Forall_impl; [exact HP|]. simpl. lia.
      - change (span_ids (tagged_span w k t :: mid ++ [tagged_span wl k t])%list)
          with (k :: span_ids (mid ++ [tagged_span wl k t])%list).
        constructor; [lia|]. rewrite span_ids_app. apply Forall_app. split.
        + unfold mid. apply span_ids_run_below.
        + constructor; [lia|constructor]. }
    assert (Hlen' : Z.of_nat (length P) + Z.of_nat (2 + length mid)
                    = Z.of_nat (length (P ++ tagged_span w k t
                                          :: mid ++ [tagged_span wl k t]))).
    { rewrite length_app. simpl. rewrite length_app. simpl. lia. }
    assert (Htexts : map (fun it => (span_text it, ("I-" ++ t)%string)) mid
                     = map (fun x => (x, ("I-" ++ t)%string)) ws).
    { unfold mid. rewrite map_map. reflexivity. }
    destruct (Z.eqb_spec (Z.of_nat (2 + length mid)) 1) as [E1|_]; [lia|].
    destruct (Z.eqb_spec (Z.of_nat (2 + length mid)) 2) as [E2|E2].
    + assert (Hws : ws = []) by (apply nil_length_inv; lia).
      subst ws. subst mid.
      simpl in Hlast, Hsplit, Hlen', HP', Hids |- *.
      change (Z.of_nat 1) with 1 in Hlast.
      rewrite Hlast. cbn [span_text tagged_span].
      replace (Z.of_nat (length P) + 2)
        with (Z.of_nat (length (P ++ [tagged_span w k t; tagged_span wl k t])))
        by (rewrite length_app; simpl; lia).
      rewrite Hsplit in *.
      rewrite (IH _ _ fuel ids Hids HP').
      * rewrite <- app_assoc. reflexivity.
      * simpl in Hfuel. lia.
    + rewrite inside_items_run.
      replace (Z.of_nat (length P) + Z.of_nat (2 + length mid) - 1)
        with (Z.of_nat (length P) + Z.of_nat (S (length mid))) by lia.
      rewrite Hlast. cbn [span_text tagged_span].
      rewrite Hlen'. rewrite Hsplit in *.
      rewrite (IH _ _ fuel ids Hids HP').
      * rewrite Htexts. rewrite <- !app_assoc. reflexivity.
      * simpl in Hfuel. rewrite length_app in Hfuel. simpl in Hfuel. lia.
Qed.

(** *** The decoding loop always ends within its fuel *)

Lemma py_index_elem_of {A} (l : list A) (i : Z) (x : A) :
  py_index l i = Some x -> x ∈ l.
Proof.
  unfold py_index. intros H.
  destruct (0 <=? i); [eapply list_elem_of_lookup_2; exact H|].
  destruct (- Z.of_nat (length l) <=? i); [|discriminate H].
  eapply list_elem_of_lookup_2; exact H.
Qed.

Lemma decode_loop_ends (items : list Span) (ids : list nat) :
  (forall it id, it ∈ items -> _is_a_tag it = true ->
                 data_tag_id it = Some id -> 1 <= counter_get ids id) ->
  forall (fuel : nat) (index : Z) (acc : list (string * string)),
    Z.of_nat (length items) <= index + Z.of_nat fuel ->
    is_Some (decode_loop fuel items ids index acc).
Proof.
  intros Hcount. induction fuel as [|fuel IH]; intros index acc Hb.
  - rewrite decode_loop_done by lia. eauto.
  - cbn [decode_loop].
    destruct (negb (index <? Z.of_nat (length items))); [eauto|].
    destruct (py_index items index) as [item|] eqn:Hitem; [|eauto].
    destruct (data_tag item) as [tag|] eqn:Htag; [|apply IH; lia].
    destruct (data_tag_id item) as [id|] eqn:Hid; [|eauto].
    assert (Hsize : 1 <= counter_get ids id).
    { apply (Hcount item id); [eapply py_index_elem_of; exact Hitem| |exact Hid].
      unfold _is_a_tag. rewrite Htag. reflexivity. }
    destruct (counter_get ids id =? 1); [apply IH; lia|].
    destruct (counter_get ids id =? 2).
    + destruct (py_index items (index + 1)); [apply IH; lia|eauto].
    + destruct (inside_items items index (counter_get ids id) tag); [|eauto].
      destruct (py_index items (index + counter_get ids id - 1)); [|eauto].
      apply IH. lia.
Qed.

(** [_get_bilou_tags_from_html] returns or raises on every markup: the
    number of elements is enough fuel for its loop. *)
Lemma _get_bilou_tags_from_html_ends (items : list Span) :
  is_Some (_get_bilou_tags_from_html items).
Proof.
  unfold _get_bilou_tags_from_html.
  destruct (mapM data_tag_id (filter (fun it => _is_a_tag it = true) items))
    as [ids|] eqn:Hids; [|eauto].
  apply decode_loop_ends; [|lia].
  intros it id Hin Htag Hid.
  apply mapM_Some_1 in Hids.
  assert (Hf : it ∈ filter (fun it => _is_a_tag it = true) items)
    by (apply list_elem_of_filter; split; assumption).
  apply list_elem_of_lookup_1 in Hf as [i Hi].
  destruct (Forall2_lookup_l _ _ _ _ _ Hids Hi) as (id' & Hid' & Heq).
  rewrite Hid in Heq. injection Heq as <-.
  apply list_elem_of_lookup_2 in Hid'.
  unfold counter_get.
  assert (Hk : id ∈ filter (fun k => k = id) ids)
    by (apply list_elem_of_filter; split; [reflexivity|exact Hid']).
  destruct (filter (fun k => k = id) ids); [inversion Hk|simpl; lia].
Qed.

Lemma valid_labels_kept (ex : list Token) :
  ValidBILOU ex ->
  map (fun p => Some p.2) (tagged_pairs ex) = map tok_label ex.
Proof.
  assert (Hall : forall l : list Token,
            Forall (fun tk => is_Some (tok_label tk)) l ->
            map (fun p => Some p.2) (tagged_pairs l) = map tok_label l).
  { induction 1 as [|tk l [lab Hl] _ IH]; [reflexivity|].
    unfold tagged_pairs in *. simpl. rewrite IH, Hl. reflexivity. }
  intros Hv. apply Hall.
  induction Hv as [|w p rest _ IH|w p t rest _ IH
                   |w p t inside wl pl rest Hin _ IH].
  - constructor.
  - constructor; [eexists; reflexivity|exact IH].
  - constructor; [eexists; reflexivity|exact IH].
  - constructor; [eexists; reflexivity|].
    apply Forall_app. split.
    + eapply Forall_impl; [exact Hin|]. simpl. intros tk ->. eexists. reflexivity.
    + constructor; [eexists; reflexivity|exact IH].
Qed.

(** The round trip on every non-empty token sequence with a valid BILOU
    label sequence: the markup exists and decoding it returns each token's
    text with its original label. *)
Theorem bilou_round_trip (ex : list Token) :
  ex <> [] ->
  ValidBILOU ex ->
  exists html : list Span,
    _generate_html_from_example ex = Some html /\
    _get_bilou_tags_from_html html = Some (Returned (tagged_pairs ex)) /\
    map (fun p => Some p.2) (tagged_pairs ex) = map tok_label ex.
Proof.
  intros Hne Hv.
  destruct (assign_tags_grouped ex Hv 0%nat) as (spans & Hs & G).
  exists spans. split; [|split].
  - destruct ex as [|first rest]; [contradiction|].
    assert (H3 : tuple_len first = 3%nat) by (inversion Hv; reflexivity).
    assert (Hg : _generate_html_from_example (first :: rest)
                 = if (tuple_len first =? 3)%nat
                   then assign_tags 0 (first :: rest)
                   else Some (map (fun item => plain_span (tok_word item))
                                  (first :: rest)))
      by reflexivity.
    rewrite Hg, H3. exact Hs.
  - unfold _get_bilou_tags_from_html.
    rewrite (grouped_tag_ids _ _ _ G).
    apply (decode_loop_grouped 0 spans (tagged_pairs ex) G [] [] (length spans)).
    + reflexivity.
    + constructor.
    + lia.
  - apply valid_labels_kept. exact Hv.
Qed.

Lemma bilou_round_trip_witness :
  let ex := [ labelled_token "the" "DT" "O";
              labelled_token "John" "NNP" "B-PROF";
              labelled_token "A" "NNP" "I-PROF";
              labelled_token "Smith" "NNP" "L-PROF";
              labelled_token "teaches" "VBZ" "O";
              labelled_token "CS101" "NNP" "U-CC" ] in
  exists html : list Span,
    _generate_html_from_example ex = Some html /\
    _get_bilou_tags_from_html html = Some (Returned (tagged_pairs ex)) /\
    map (fun p => Some p.2) (tagged_pairs ex) = map tok_label ex.
Proof.
  intros ex. apply (bilou_round_trip ex).
  - discriminate.
  - apply valid_outside.
    apply (valid_span "John" "NNP" "PROF" [labelled_token "A" "NNP" "I-PROF"]
                      "Smith" "NNP").
    + constructor; [reflexivity|constructor].
    + apply valid_outside. apply (valid_unit "CS101" "NNP" "CC").
      apply valid_nil.
Defined.

(** * Further properties *)

(** ** The classifier on arbitrary strings *)

(** The class is EMPTY for the empty string and for no other string. *)
Theorem alphanum_empty_iff (s : string) :
  _is_alpha_and_numeric s = "EMPTY" <-> s = "".
Proof.
  split.
  - destruct s as [|c r]; [reflexivity|].
    unfold _is_alpha_and_numeric.
    destruct (PyStr.isdigit (String c r)); [discriminate|].
    destruct (PyStr.isalpha (String c r)).
    { destruct (PyStr.isupper (String c r)); [discriminate|].
      destruct (PyStr.islower (String c r)); discriminate. }
    change (0 <? PyStr.len (String c r))%nat with true. cbv iota.
    destruct (PyStr.first (String c r)); [|discriminate].
    destruct (PyStr.final (String c r)); [|discriminate].
    cbv zeta. destruct (0 + end_score a + end_score a0 =? 0); discriminate.
  - intros ->. reflexivity.
Qed.

(** Every class is one of the six names or the empty string. *)
Theorem alphanum_classes_closed (s : string) :
  In (_is_alpha_and_numeric s)
     ["DIGIT"; "ALPHA_UPPER"; "ALPHA_LOWER"; "ALPHA"; "ALPHA_NUM"; "EMPTY"; ""].
Proof.
  unfold _is_alpha_and_numeric.
  destruct (PyStr.isdigit s); [simpl; tauto|].
  destruct (PyStr.isalpha s).
  { destruct (PyStr.isupper s); [simpl; tauto|].
    destruct (PyStr.islower s); simpl; tauto. }
  destruct (0 <? PyStr.len s)%nat; [|simpl; tauto].
  destruct (PyStr.first s); [|simpl; tauto].
  destruct (PyStr.final s); [|simpl; tauto].
  cbv zeta. destruct (0 + end_score a + end_score a0 =? 0); simpl; tauto.
Qed.

(** A string whose first and last characters are ASCII characters that
    are neither letters nor digits is classified ALPHA_NUM, whatever lies
    between them: the class says nothing about letters or digits being
    present. *)
Theorem alphanum_of_symbol_ends (s : string) (a b : ascii) :
  PyStr.first s = Some a ->
  PyStr.final s = Some b ->
  PyStr.char_isascii a = true -> PyStr.char_isascii b = true ->
  PyStr.char_isdigit a = false -> PyStr.char_isalpha a = false ->
  PyStr.char_isdigit b = false -> PyStr.char_isalpha b = false ->
  _is_alpha_and_numeric s = "ALPHA_NUM".
Proof.
  intros Ha Hb _ _ Da Aa Db Ab.
  destruct s as [|c r]; [discriminate Ha|].
  injection Ha as ->.
  unfold _is_alpha_and_numeric.
  assert (Hd : PyStr.isdigit (String a r) = false).
  { unfold PyStr.isdigit. simpl. rewrite Da. reflexivity. }
  assert (Hl : PyStr.isalpha (String a r) = false).
  { unfold PyStr.isalpha. simpl. rewrite Aa. reflexivity. }
  rewrite Hd, Hl, Hb.
  change (0 <? PyStr.len (String a r))%nat with true.
  change (PyStr.first (String a r)) with (Some a).
  cbv iota zeta. unfold end_score. rewrite Da, Aa, Db, Ab. reflexivity.
Qed.

Lemma alphanum_of_symbol_ends_witness :
  _is_alpha_and_numeric "(abc123)" = "ALPHA_NUM".
Proof.
  apply (alphanum_of_symbol_ends "(abc123)" "("%char ")"%char);
    reflexivity.
Defined.

(** ** Shapes of the per-sentence helpers *)

(** [_sent2features] never raises and returns one mapping per token, the
    empty sentence included. *)
Theorem _sent2features_shape (sent : list Token) :
  exists fs : list Features,
    _sent2features sent = Some fs /\ length fs = length sent.
Proof.
  destruct (_sent2features_total sent) as [fs Hfs].
  exists fs. split; [exact Hfs|]. apply _sent2features_length. exact Hfs.
Qed.

Lemma add_neighbour_words (off : string) (s1 s2 : list Token) (j : nat)
    (f : Features) :
  map tok_word s1 = map tok_word s2 ->
  map tok_pos s1 = map tok_pos s2 ->
  add_neighbour off s1 j f = add_neighbour off s2 j f.
Proof.
  intros Hw Hp. unfold add_neighbour.
  assert (Ew : tok_word <$> s1 !! j = tok_word <$> s2 !! j)
    by (rewrite <- !list_lookup_fmap; f_equal; exact Hw).
  assert (Ep : tok_pos <$> s1 !! j = tok_pos <$> s2 !! j)
    by (rewrite <- !list_lookup_fmap; f_equal; exact Hp).
  destruct (s1 !! j) as [t1|], (s2 !! j) as [t2|]; simpl in *;
    try discriminate; [|reflexivity].
  injection Ew as ->. injection Ep as ->. reflexivity.
Qed.

Lemma _word2features_words (s1 s2 : list Token) (i : nat) :
  map tok_word s1 = map tok_word s2 ->
  map tok_pos s1 = map tok_pos s2 ->
  _word2features s1 i = _word2features s2 i.
Proof.
  intros Hw Hp. unfold _word2features.
  assert (Hlen : length s1 = length s2).
  { rewrite <- (length_map tok_word s1), Hw. apply length_map. }
  assert (Ew : tok_word <$> s1 !! i = tok_word <$> s2 !! i)
    by (rewrite <- !list_lookup_fmap; f_equal; exact Hw).
  assert (Ep : tok_pos <$> s1 !! i = tok_pos <$> s2 !! i)
    by (rewrite <- !list_lookup_fmap; f_equal; exact Hp).
  destruct (s1 !! i) as [t1|], (s2 !! i) as [t2|]; simpl in Ew, Ep;
    try discriminate; [|reflexivity].
  injection Ew as Ew. injection Ep as Ep.
  cbn [mbind option_bind]. rewrite Ew, Ep, Hlen.
  pose proof (fun off j f => add_neighbour_words off s1 s2 j f Hw Hp) as H.
  repeat
    match goal with
    | |- context [add_neighbour ?o s1 ?j ?f] => rewrite (H o j f)
    | |- (if ?c then _ else _) ≫= _ = (if ?c then _ else _) ≫= _ =>
        destruct c
    | |- (if ?c then _ else _) = (if ?c then _ else _) => destruct c
    | |- (?x ≫= _) = (?x ≫= _) => destruct x; cbn [mbind option_bind]
    end;
    reflexivity.
Qed.

(** The features read the surface forms and the POS tags only: sentences
    that differ in nothing but their labels have the same features. *)
Theorem _sent2features_ignores_labels (s1 s2 : list Token) :
  map tok_word s1 = map tok_word s2 ->
  map tok_pos s1 = map tok_pos s2 ->
  _sent2features s1 = _sent2features s2.
Proof.
  intros Hw Hp. unfold _sent2features.
  assert (Hlen : length s1 = length s2).
  { rewrite <- (length_map tok_word s1), Hw. apply length_map. }
  rewrite Hlen. apply mapM_ext. intros i.
  apply _word2features_words; assumption.
Qed.

Lemma _sent2features_ignores_labels_witness :
  _sent2features [labelled_token "Dr" "NNP" "B-PROF";
                  labelled_token "Smith" "NNP" "L-PROF"]
  = _sent2features [unlabelled_token "Dr" "NNP"; unlabelled_token "Smith" "NNP"].
Proof.
  apply _sent2features_ignores_labels; reflexivity.
Defined.

(** ** Boundary and neighbour features at every position *)

Ltac lookup_features :=
  unfold dict_update, neighbour_features, own_features;
  cbn [foldl fst snd String.append];
  repeat (rewrite lookup_insert_eq
          || rewrite lookup_insert_ne by discriminate);
  try rewrite lookup_empty;
  try reflexivity.

Ltac neighbour_present :=
  cbn [describes_neighbour]; repeat split; lookup_features.

Ltac neighbour_absent :=
  cbn [describes_neighbour];
  let k := fresh "k" in
  let Hk := fresh "Hk" in
  intros k Hk;
  unfold dict_update, neighbour_features, own_features;
  cbn [foldl fst snd String.append];
  repeat (rewrite lookup_insert_ne
            by (intros <-; vm_compute in Hk; discriminate Hk));
  apply lookup_empty.

(** At every position of every sentence: [BOS] is set exactly at the first
    position and [EOS] exactly at the last one; for each of the offsets
    [-1], [+1], [-2] and [+2] the mapping holds the seven features of the
    token at that offset (lower-cased word, last three and last two
    characters, title case, upper case, POS tag and alphanumeric class)
    when the sentence has such a token, and no key with that prefix when
    it has none. *)
Theorem boundary_features (sent : list Token) (i : nat) :
  (i < length sent)%nat ->
  exists f : gmap string FeatureValue,
    _word2features sent i = Some f /\
    f !! "BOS" = (if Nat.eqb i 0 then Some (FBool true) else None) /\
    f !! "EOS"
      = (if Nat.eqb (S i) (length sent) then Some (FBool true) else None) /\
    describes_neighbour f "-1:"
      (if Nat.eqb i 0 then None else sent !! (i - 1)%nat) /\
    describes_neighbour f "+1:" (sent !! (i + 1)%nat) /\
    describes_neighbour f "-2:"
      (if Nat.ltb i 2 then None else sent !! (i - 2)%nat) /\
    describes_neighbour f "+2:" (sent !! (i + 2)%nat).
Proof.
  intros Hi. unfold _word2features, add_neighbour.
  destruct (lookup_lt_is_Some_2 sent i Hi) as [t Ht].
  rewrite Ht. cbn [mbind option_bind].
  destruct (Z.ltb_spec 0 (Z.of_nat i)) as [C1|C1];
  destruct (Z.ltb_spec 1 (Z.of_nat i)) as [C2|C2]; try lia;
  destruct (Z.ltb_spec (Z.of_nat i) (Z.of_nat (length sent) - 1)) as [C3|C3];
  destruct (Z.ltb_spec (Z.of_nat i) (Z.of_nat (length sent) - 2)) as [C4|C4];
    try lia;
  repeat
    match goal with
    | |- context [sent !! ?j ≫= _] =>
        let p := fresh "p" in
        let Hp := fresh "Hp" in
        destruct (lookup_lt_is_Some_2 sent j) as [p Hp]; [lia|];
        rewrite Hp; cbn [mbind option_bind]
    end;
  (eexists; split; [reflexivity|]);
  (destruct (Nat.eqb_spec i 0) as [E0|E0]; [try lia|try lia]);
  (destruct (Nat.eqb_spec (S i) (length sent)) as [E1|E1]; [try lia|try lia]);
  (destruct (Nat.ltb_spec i 2) as [E2|E2]; [try lia|try lia]);
  try (rewrite (lookup_ge_None_2 sent (i + 1)) by lia);
  try (rewrite (lookup_ge_None_2 sent (i + 2)) by lia);
  repeat match goal with
         | H : sent !! _ = Some _ |- _ => rewrite H
         end;
  (split; [lookup_features|]);
  (split; [lookup_features|]);
  (split; [first [solve [neighbour_present] | neighbour_absent]|]);
  (split; [first [solve [neighbour_present] | neighbour_absent]|]);
  (split; first [solve [neighbour_present] | neighbour_absent]).
Qed.

Lemma boundary_features_witness :
  let sent := [unlabelled_token "Dr" "NNP"; unlabelled_token "Smith" "NNP";
               unlabelled_token "teaches" "VBZ"] in
  exists f : gmap string FeatureValue,
    _word2features sent 1 = Some f /\
    f !! "BOS" = (if Nat.eqb 1 0 then Some (FBool true) else None) /\
    f !! "EOS"
      = (if Nat.eqb 2 (length sent) then Some (FBool true) else None) /\
    describes_neighbour f "-1:"
      (if Nat.eqb 1 0 then None else sent !! (1 - 1)%nat) /\
    describes_neighbour f "+1:" (sent !! (1 + 1)%nat) /\
    describes_neighbour f "-2:"
      (if Nat.ltb 1 2 then None else sent !! (1 - 2)%nat) /\
    describes_neighbour f "+2:" (sent !! (1 + 2)%nat).
Proof.
  intros sent. apply (boundary_features sent 1). simpl. lia.
Defined.

(** ** Attaching predictions to a sentence *)

Lemma zip_lookup {A B} (l : list A) (k : list B) (i : nat) (a : A) (b : B) :
  zip l k !! i = Some (a, b) <-> l !! i = Some a /\ k !! i = Some b.
Proof.
  revert k i. induction l as [|x l IH]; intros [|y k] i; simpl.
  - split; [discriminate|intros [H _]; discriminate H].
  - split; [discriminate|intros [H _]; discriminate H].
  - split; [discriminate|intros [_ H]; discriminate H].
  - destruct i as [|i]; simpl.
    + split; [intros H; injection H as -> ->; auto|].
      intros [H1 H2]. injection H1 as ->. injection H2 as ->. reflexivity.
    + apply IH.
Qed.

Lemma zip_length_le {A B} (l : list A) (k : list B) :
  (length l <= length k)%nat -> length (zip l k) = length l.
Proof.
  revert k. induction l as [|x l IH]; intros [|y k] H; simpl in *;
    try reflexivity; try lia.
  rewrite IH; [reflexivity|lia].
Qed.

Lemma zip_take {A B} (l : list A) (k : list B) :
  zip l (take (length l) k) = zip l k.
Proof.
  revert k. induction l as [|x l IH]; intros [|y k]; simpl;
    try reflexivity.
  rewrite IH. reflexivity.
Qed.

Lemma add_prediction_zip
    (postagged : list Token) (prediction : list string) :
  _add_prediction_to_postagged_data postagged prediction
  = if (length postagged <=? length prediction)%nat
    then Some (map (fun tp => mkToken (tok_word tp.1) (tok_pos tp.1) (Some tp.2))
                   (zip postagged prediction))
    else None.
Proof.
  unfold _add_prediction_to_postagged_data.
  destruct (Nat.leb_spec (length postagged) (length prediction)) as [L|L].
  - rewrite <- (zip_length_le postagged prediction L).
    apply (mapM_seq_lookup _
             (fun tp : Token * string =>
                mkToken (tok_word tp.1) (tok_pos tp.1) (Some tp.2))
             (zip postagged prediction) 0%nat).
    intros i [t p] Hx. apply zip_lookup in Hx as [Ht Hp].
    simpl. rewrite Ht, Hp. reflexivity.
  - apply mapM_None_2. apply Exists_exists.
    exists (length prediction). split.
    + apply elem_of_seq. lia.
    + destruct (lookup_lt_is_Some_2 postagged (length prediction) L) as [t ->].
      rewrite (lookup_ge_None_2 prediction (length prediction)) by lia.
      reflexivity.
Qed.

(** [_add_prediction_to_postagged_data] raises [IndexError] exactly when
    there are fewer predictions than tokens; predictions beyond the last
    token are ignored and the result has one token per input token. *)
Theorem _add_prediction_needs_enough_labels
    (postagged : list Token) (prediction : list string) :
  (_add_prediction_to_postagged_data postagged prediction = None
   <-> (length prediction < length postagged)%nat) /\
  (forall toret,
     _add_prediction_to_postagged_data postagged prediction = Some toret ->
     length toret = length postagged /\
     _add_prediction_to_postagged_data postagged
       (take (length postagged) prediction) = Some toret).
Proof.
  rewrite add_prediction_zip.
  destruct (Nat.leb_spec (length postagged) (length prediction)) as [L|L].
  - split; [split; [discriminate|lia]|].
    intros toret H. injection H as <-. split.
    + rewrite length_map. apply zip_length_le. exact L.
    + rewrite add_prediction_zip, length_take_le by exact L.
      rewrite Nat.leb_refl, zip_take. reflexivity.
  - split; [split; [lia|reflexivity]|]. intros toret H. discriminate H.
Qed.

(** When predictions are attached, the surface forms and POS tags stay as
    they were and the labels read back are the predictions, one per
    token. *)
Theorem _add_prediction_labels
    (postagged toret : list Token) (prediction : list string) :
  _add_prediction_to_postagged_data postagged prediction = Some toret ->
  map tok_word toret = map tok_word postagged /\
  map tok_pos toret = map tok_pos postagged /\
  _sent2labels toret = Some (take (length postagged) prediction).
Proof.
  rewrite add_prediction_zip.
  destruct (Nat.leb_spec (length postagged) (length prediction)) as [L|L];
    [|discriminate].
  intros H. injection H as <-.
  revert prediction L.
  induction postagged as [|t postagged IH]; intros [|p prediction] L;
    simpl in L; try lia; try (repeat split; reflexivity).
  destruct (IH prediction) as (Hw & Hp & Hl); [lia|].
  simpl. rewrite Hw, Hp. repeat split.
  unfold _sent2labels in *. simpl. rewrite Hl. reflexivity.
Qed.

Lemma _add_prediction_labels_witness :
  map tok_word [labelled_token "text" "NN" "O"; labelled_token "one" "CD" "U-CR"]
    = map tok_word [unlabelled_token "text" "NN"; unlabelled_token "one" "CD"] /\
  map tok_pos [labelled_token "text" "NN" "O"; labelled_token "one" "CD" "U-CR"]
    = map tok_pos [unlabelled_token "text" "NN"; unlabelled_token "one" "CD"] /\
  _sent2labels [labelled_token "text" "NN" "O"; labelled_token "one" "CD" "U-CR"]
    = Some (take (length [unlabelled_token "text" "NN";
                          unlabelled_token "one" "CD"])
                 ["O"; "U-CR"; "O"]).
Proof.
  apply (_add_prediction_labels
           [unlabelled_token "text" "NN"; unlabelled_token "one" "CD"]
           [labelled_token "text" "NN" "O"; labelled_token "one" "CD" "U-CR"]
           ["O"; "U-CR"; "O"]).
  reflexivity.
Defined.

(** ** Allocation of examples: construction and appending *)

Lemma alloc_examples_spec (raws : list (list Token)) :
  forall (next : nat) (h : gmap nat Example),
    exists h' : gmap nat Example,
      alloc_examples next raws h = (seq next (length raws), h') /\
      (forall a, (a < next)%nat -> h' !! a = h !! a) /\
      (forall k raw, raws !! k = Some raw ->
                     h' !! (next + k)%nat = Some (mkExample raw None)).
Proof.
  induction raws as [|r raws IH]; intros next h.
  - exists h. split; [reflexivity|]. split; [reflexivity|].
    intros k raw Hk. discriminate Hk.
  - simpl alloc_examples.
    destruct (IH (S next) (<[next := mkExample r None]> h))
      as (h' & Ha & Hold & Hnew).
    exists h'. rewrite Ha. split; [reflexivity|]. split.
    + intros a Ha'. rewrite Hold by lia.
      apply lookup_insert_ne. lia.
    + intros [|k] raw Hk; simpl in Hk.
      * injection Hk as <-. rewrite Nat.add_0_r.
        rewrite Hold by lia. apply lookup_insert_eq.
      * replace (next + S k)%nat with (S next + k)%nat by lia.
        apply Hnew. exact Hk.
Qed.

(** A tagger built from a list of texts holds one unlabelled example per
    text, in the order of the texts, each with the tokens of its text and
    no features yet; nothing is labelled, there is no model and nothing is
    selected. *)
Theorem BaseNerTagger_init_pool
    (Model : Type) (pos_tag : string -> list Token) (texts : list string) :
  exists pool : list nat,
    let s := BaseNerTagger_init Model pos_tag (Some texts) in
    unlabelled s = Some pool /\
    length pool = length texts /\
    NoDup pool /\
    (forall k text, texts !! k = Some text ->
       exists a, pool !! k = Some a /\
                 heap s !! a = Some (mkExample (pos_tag text) None)) /\
    labelled s = [] /\ model s = None /\
    current_example s = None /\ current_example_index s = None.
Proof.
  unfold BaseNerTagger_init.
  destruct (alloc_examples_spec (map pos_tag texts) 0 ∅)
    as (h & Ha & _ & Hnew).
  rewrite Ha. rewrite length_map in *.
  exists (seq 0 (length texts)). cbn.
  split; [reflexivity|]. split; [apply length_seq|].
  split; [apply NoDup_seq|]. split; [|repeat split].
  intros k text Hk. exists k. split.
  - apply lookup_seq. split; [reflexivity|].
    eapply lookup_lt_Some. exact Hk.
  - apply (Hnew k (pos_tag text)).
    rewrite list_lookup_fmap, Hk. reflexivity.
Qed.

(** Appending texts whose dicts are stored at addresses not used before
    extends the pool at its end: the examples already in the pool keep
    their positions and their contents, and the new positions hold the
    tokens of the new texts, without features. *)
Theorem add_unlabelled_examples_appends
    (Model : Type) (pos_tag : string -> list Token) (next : nat)
    (examples : list string) (s : Tagger Model) (pool : list nat) :
  unlabelled s = Some pool ->
  Forall (fun a => (a < next)%nat) pool ->
  exists s' : Tagger Model,
    add_unlabelled_examples Model pos_tag next examples s = (Returned tt, s') /\
    unlabelled s' = Some (pool ++ seq next (length examples))%list /\
    (forall k a, pool !! k = Some a ->
       unlabelled s' ≫= (fun p => p !! k) = Some a /\
       heap s' !! a = heap s !! a) /\
    (forall k text, examples !! k = Some text ->
       heap s' !! (next + k)%nat = Some (mkExample (pos_tag text) None)) /\
    labelled s' = labelled s /\ model s' = model s /\
    current_example s' = current_example s /\
    current_example_index s' = current_example_index s.
Proof.
  intros Hu Hfresh. unfold add_unlabelled_examples.
  destruct (alloc_examples_spec (map pos_tag examples) next (heap s))
    as (h & Ha & Hold & Hnew).
  rewrite Ha, Hu. rewrite length_map in *.
  eexists. split; [reflexivity|]. cbn.
  split; [reflexivity|]. split; [|split; [|repeat split]].
  - intros k a Hk. split.
    + rewrite lookup_app_l by (eapply lookup_lt_Some; exact Hk). exact Hk.
    + apply Hold.
      apply (proj1 (Forall_forall _ _) Hfresh a).
      eapply list_elem_of_lookup_2. exact Hk.
  - intros k text Hk. apply (Hnew k (pos_tag text)).
    rewrite list_lookup_fmap, Hk. reflexivity.
Qed.

Lemma add_unlabelled_examples_appends_witness :
  exists s' : Tagger unit,
    add_unlabelled_examples unit sample_pos_tag 2 ["text three"] sample_tagger
    = (Returned tt, s') /\
    unlabelled s' = Some ([0; 1] ++ seq 2 (length ["text three"]))%nat%list /\
    (forall k a, [0; 1]%nat !! k = Some a ->
       unlabelled s' ≫= (fun p => p !! k) = Some a /\
       heap s' !! a = heap sample_tagger !! a) /\
    (forall k text, ["text three"] !! k = Some text ->
       heap s' !! (2 + k)%nat = Some (mkExample (sample_pos_tag text) None)) /\
    labelled s' = labelled sample_tagger /\ model s' = model sample_tagger /\
    current_example s' = current_example sample_tagger /\
    current_example_index s' = current_example_index sample_tagger.
Proof.
  apply (add_unlabelled_examples_appends unit sample_pos_tag 2 ["text three"]
           sample_tagger [0; 1]%nat).
  - reflexivity.
  - repeat constructor; lia.
Defined.

(** ** Selection *)

(** Selecting from an empty pool fails with [ValueError], in the bootstrap
    regime ([random.randint(0, -1)]) and in the query regime
    ([numpy.random.randint(0, -1, size=250)]) alike, and changes nothing. *)
Theorem selection_from_empty_pool_fails
    (Model : Type) (predict_single : Model -> list Features -> list string)
    (predict_marginals :
       Model -> list (list Features) -> list (list Scorer.Marginals))
    (entropy : list float -> float)
    (mode : string) (rng : Rng) (s : Tagger Model) :
  unlabelled s = Some [] ->
  get_new_random_example Model rng s = (Raised ValueError, s) /\
  query_new_example Model predict_single predict_marginals entropy mode rng s
  = (Raised ValueError, s).
Proof.
  intros Hu. unfold get_new_random_example, query_new_example.
  rewrite Hu. split; reflexivity.
Qed.

Lemma selection_from_empty_pool_fails_witness :
  get_new_random_example unit (fun _ => 7)
    (BaseNerTagger_init unit sample_pos_tag (Some []))
  = (Raised ValueError, BaseNerTagger_init unit sample_pos_tag (Some [])) /\
  query_new_example unit (fun _ _ => []) (fun _ _ => []) (fun _ => 0%float)
                    "max" (fun _ => 7)
    (BaseNerTagger_init unit sample_pos_tag (Some []))
  = (Raised ValueError, BaseNerTagger_init unit sample_pos_tag (Some [])).
Proof.
  apply (selection_from_empty_pool_fails unit (fun _ _ => []) (fun _ _ => [])
           (fun _ => 0%float)
           "max" (fun _ => 7)).
  reflexivity.
Defined.

(** On a non-empty pool whose entries are stored, the bootstrap selection
    returns the tokens of the example at the drawn position, records that
    position and that example as the current selection, and leaves the
    pools, the model and the stored examples as they were. *)
Theorem get_new_random_example_selects
    (Model : Type) (rng : Rng) (s : Tagger Model) (pool : list nat) :
  unlabelled s = Some pool ->
  pool <> [] ->
  (forall a, a ∈ pool -> is_Some (heap s !! a)) ->
  exists (i : nat) (a : nat) (ex : Example) (s' : Tagger Model),
    get_new_random_example Model rng s = (Returned (ex_raw ex), s') /\
    pool !! i = Some a /\ heap s !! a = Some ex /\
    current_example_index s' = Some (Z.of_nat i) /\
    current_example s' = Some a /\
    heap s' = heap s /\ unlabelled s' = unlabelled s /\
    labelled s' = labelled s /\ model s' = model s.
Proof.
  intros Hu Hne Hstored. unfold get_new_random_example, random_randint.
  rewrite Hu.
  assert (Hlen : (0 < length pool)%nat) by (destruct pool; [congruence|simpl; lia]).
  destruct (Z.leb_spec 0 (Z.of_nat (length pool) - 1)) as [L|L]; [|lia].
  set (i := 0 + rng 0%nat `mod` (Z.of_nat (length pool) - 1 - 0 + 1)).
  assert (Hi : 0 <= i < Z.of_nat (length pool)).
  { unfold i.
    pose proof (Z.mod_pos_bound (rng 0%nat)
                  (Z.of_nat (length pool) - 1 - 0 + 1)) as Hb. lia. }
  unfold py_index.
  destruct (Z.leb_spec 0 i) as [_|L0]; [|lia].
  destruct (lookup_lt_is_Some_2 pool (Z.to_nat i)) as [a Ha]; [lia|].
  rewrite Ha. cbn [heap set_current_example set_current_example_index].
  destruct (Hstored a) as [ex Hex];
    [eapply list_elem_of_lookup_2; exact Ha|].
  rewrite Hex.
  exists (Z.to_nat i), a, ex. eexists. split; [reflexivity|].
  cbn. rewrite Z2Nat.id by lia. repeat split; assumption.
Qed.

Lemma get_new_random_example_selects_witness :
  exists (i : nat) (a : nat) (ex : Example) (s' : Tagger unit),
    get_new_random_example unit (fun _ => 7) sample_tagger
    = (Returned (ex_raw ex), s') /\
    [0; 1]%nat !! i = Some a /\ heap sample_tagger !! a = Some ex /\
    current_example_index s' = Some (Z.of_nat i) /\
    current_example s' = Some a /\
    heap s' = heap sample_tagger /\ unlabelled s' = unlabelled sample_tagger /\
    labelled s' = labelled sample_tagger /\ model s' = model sample_tagger.
Proof.
  apply (get_new_random_example_selects unit (fun _ => 7) sample_tagger
           [0; 1]%nat).
  - reflexivity.
  - discriminate.
  - intros a Ha.
    apply elem_of_cons in Ha as [->|Ha]; [vm_compute; eauto|].
    apply elem_of_cons in Ha as [->|Ha]; [vm_compute; eauto|].
    inversion Ha.
Defined.

(** Every position of the pool, the last one included, is drawn by the
    bootstrap selection for a suitable random draw. *)
Theorem get_new_random_example_reaches
    (Model : Type) (s : Tagger Model) (pool : list nat) (j : nat) (a : nat)
    (ex : Example) :
  unlabelled s = Some pool ->
  pool !! j = Some a ->
  heap s !! a = Some ex ->
  exists s' : Tagger Model,
    get_new_random_example Model (fun _ => Z.of_nat j) s
    = (Returned (ex_raw ex), s') /\
    current_example_index s' = Some (Z.of_nat j) /\
    current_example s' = Some a.
Proof.
  intros Hu Hj Hex. unfold get_new_random_example, random_randint.
  rewrite Hu.
  assert (Hlt : (j < length pool)%nat) by (eapply lookup_lt_Some; exact Hj).
  destruct (Z.leb_spec 0 (Z.of_nat (length pool) - 1)) as [L|L]; [|lia].
  replace (0 + Z.of_nat j `mod` (Z.of_nat (length pool) - 1 - 0 + 1))
    with (Z.of_nat j) by (rewrite Z.mod_small; lia).
  unfold py_index.
  destruct (Z.leb_spec 0 (Z.of_nat j)) as [_|L0]; [|lia].
  rewrite Nat2Z.id, Hj.
  cbn [heap set_current_example set_current_example_index].
  rewrite Hex. eexists. split; [reflexivity|]. split; reflexivity.
Qed.

Lemma get_new_random_example_reaches_witness :
  exists s' : Tagger unit,
    get_new_random_example unit (fun _ => Z.of_nat 1) sample_tagger
    = (Returned (ex_raw (mkExample (sample_pos_tag "text two") None)), s') /\
    current_example_index s' = Some (Z.of_nat 1) /\
    current_example s' = Some 1%nat.
Proof.
  apply (get_new_random_example_reaches unit sample_tagger [0; 1]%nat 1 1%nat
           (mkExample (sample_pos_tag "text two") None)).
  - reflexivity.
  - reflexivity.
  - vm_compute. reflexivity.
Defined.

(** ** Cached features stay those of the stored tokens *)

Lemma coherent_insert (h : gmap nat Example) (a : nat) (e : Example) :
  CacheCoherent h ->
  (forall f, ex_features e = Some f -> _sent2features (ex_raw e) = Some f) ->
  CacheCoherent (<[a := e]> h).
Proof.
  intros Hc He a' ex f Hl Hf.
  destruct (decide (a = a')) as [->|Hne].
  - rewrite lookup_insert_eq in Hl. injection Hl as <-. apply He. exact Hf.
  - rewrite lookup_insert_ne in Hl by exact Hne. eapply Hc; eassumption.
Qed.

Lemma collect_features_coherent (pool : list nat) (sample : list Z) :
  forall (h : gmap nat Example),
    CacheCoherent h -> CacheCoherent (collect_features pool sample h).2.
Proof.
  induction sample as [|i sample IH]; intros h Hc; simpl; [exact Hc|].
  destruct (py_index pool i) as [a|]; [|exact Hc].
  destruct (h !! a) as [ex|] eqn:Hex; [|exact Hc].
  destruct (ex_features ex) as [f|] eqn:Hf.
  - specialize (IH h Hc).
    destruct (collect_features pool sample h) as [X h2]. exact IH.
  - destruct (_sent2features (ex_raw ex)) as [f|] eqn:Hs; [|exact Hc].
    assert (Hc' : CacheCoherent (<[a := mkExample (ex_raw ex) (Some f)]> h)).
    { apply coherent_insert; [exact Hc|].
      simpl. intros f' Hf'. injection Hf' as <-. exact Hs. }
    specialize (IH _ Hc').
    destruct (collect_features pool sample
                (<[a := mkExample (ex_raw ex) (Some f)]> h)) as [X h2].
    exact IH.
Qed.

Lemma alloc_examples_coherent (raws : list (list Token)) :
  forall (next : nat) (h : gmap nat Example),
    CacheCoherent h -> CacheCoherent (alloc_examples next raws h).2.
Proof.
  induction raws as [|r raws IH]; intros next h Hc; simpl; [exact Hc|].
  assert (Hc' : CacheCoherent (<[next := mkExample r None]> h))
    by (apply coherent_insert; [exact Hc|simpl; intros f' Hf'; discriminate Hf']).
  specialize (IH (S next) _ Hc').
  destruct (alloc_examples (S next) raws (<[next := mkExample r None]> h)).
  exact IH.
Qed.

Lemma reload_examples_coherent (loaded : list Example) :
  forall (next : nat) (h h' : gmap nat Example) (addrs : list nat),
    CacheCoherent h ->
    reload_examples next loaded h = Some (addrs, h') ->
    CacheCoherent h'.
Proof.
  induction loaded as [|lab loaded IH]; intros next h h' addrs Hc H; simpl in H.
  - injection H as _ <-. exact Hc.
  - destruct (_sent2features (ex_raw lab)) as [f|] eqn:Hs; [|discriminate H].
    simpl in H.
    match type of H with
    | context [reload_examples ?n ?l ?m] =>
        destruct (reload_examples n l m) as [[addrs' h2]|] eqn:Hr
    end; cbn in H; [|discriminate H].
    injection H as _ <-.
    eapply IH; [|exact Hr].
    apply coherent_insert; [exact Hc|].
    simpl. intros f' Hf'. injection Hf' as <-. exact Hs.
Qed.

(** Whatever the outcome of an operation of the controller, the features
    cached in an example remain the features of the tokens it holds: they
    are computed when absent, recomputed when the tokens are replaced, and
    never kept from a reloaded file. *)
Theorem cached_features_stay_coherent
    (Model : Type) (predict_single : Model -> list Features -> list string)
    (predict_marginals :
       Model -> list (list Features) -> list (list Scorer.Marginals))
    (entropy : list float -> float)
    (pos_tag : string -> list Token) (new_crf : Model)
    (fit : Model -> list (list Features) -> list (list string) -> Model)
    (s : Tagger Model) :
  CacheCoherent (heap s) ->
  (forall rng, CacheCoherent (heap (get_new_random_example Model rng s).2)) /\
  (forall mode rng,
     CacheCoherent
       (heap (query_new_example Model predict_single predict_marginals entropy
                                mode rng s).2)) /\
  (forall data, CacheCoherent (heap (save_example Model data s).2)) /\
  CacheCoherent (heap (update_model Model new_crf fit s).2) /\
  (forall next examples,
     CacheCoherent
       (heap (add_unlabelled_examples Model pos_tag next examples s).2)) /\
  (forall next loaded,
     CacheCoherent (heap (load_data Model next loaded s).2)).
Proof.
  intros Hc. repeat split.
  - intros rng. unfold get_new_random_example.
    repeat (match goal with
            | |- context [match ?x with _ => _ end] => destruct x
            end; cbn); exact Hc.
  - intros mode rng. unfold query_new_example.
    destruct (unlabelled s) as [pool|]; [|exact Hc].
    destruct (query_sample rng (length pool)) as [sample|]; [|exact Hc].
    pose proof (collect_features_coherent pool sample (heap s) Hc) as Hc'.
    destruct (collect_features pool sample (heap s)) as [X h].
    simpl in Hc'.
    repeat (match goal with
            | |- context [match ?x with _ => _ end] => destruct x
            end; cbn); exact Hc'.
  - intros data. unfold save_example.
    destruct (current_example s) as [a|]; [|exact Hc].
    destruct (heap s !! a) as [ex|]; [|exact Hc].
    destruct (negb (length data =? length (ex_raw ex))%nat); [exact Hc|].
    destruct (corrected_tokens (ex_raw ex) data) as [toret|]; [|exact Hc].
    destruct (_sent2features_total toret) as [f Hf]. rewrite Hf.
    assert (Hc' : CacheCoherent
                    (<[a := mkExample toret (Some f)]>
                       (<[a := mkExample toret (ex_features ex)]> (heap s)))).
    { rewrite insert_insert_eq. apply coherent_insert; [exact Hc|].
      simpl. intros f' Hf'. injection Hf' as <-. exact Hf. }
    repeat (match goal with
            | |- context [match ?x with _ => _ end] => destruct x
            end; cbn); exact Hc'.
  - unfold update_model. cbn.
    repeat (match goal with
            | |- context [match ?x with _ => _ end] => destruct x
            end; cbn); exact Hc.
  - intros next examples. unfold add_unlabelled_examples.
    pose proof (alloc_examples_coherent (map pos_tag examples) next (heap s) Hc)
      as Hc'.
    destruct (alloc_examples next (map pos_tag examples) (heap s)) as [addrs h].
    simpl in Hc'.
    destruct (unlabelled s); cbn; [exact Hc'|exact Hc].
  - intros next loaded. unfold load_data.
    destruct (reload_examples next loaded (heap s)) as [[addrs h]|] eqn:Hr;
      cbn; [|exact Hc].
    eapply reload_examples_coherent; [exact Hc|exact Hr].
Qed.

Lemma BaseNerTagger_init_coherent
    (Model : Type) (pos_tag : string -> list Token)
    (dataset : option (list string)) :
  CacheCoherent (heap (BaseNerTagger_init Model pos_tag dataset)).
Proof.
  assert (He : CacheCoherent (∅ : gmap nat Example)).
  { intros a ex f Hl. rewrite lookup_empty in Hl. discriminate Hl. }
  unfold BaseNerTagger_init. destruct dataset as [texts|]; [|exact He].
  pose proof (alloc_examples_coherent (map pos_tag texts) 0 ∅ He) as Hc.
  destruct (alloc_examples 0 (map pos_tag texts) ∅) as [addrs h].
  exact Hc.
Qed.

Lemma cached_features_stay_coherent_witness :
  (forall rng,
     CacheCoherent (heap (get_new_random_example unit rng sample_tagger).2)) /\
  (forall mode rng,
     CacheCoherent
       (heap (query_new_example unit (fun _ _ => []) (fun _ _ => [])
                                (fun _ => 0%float)
                                mode rng sample_tagger).2)) /\
  (forall data, CacheCoherent (heap (save_example unit data sample_tagger).2)) /\
  CacheCoherent (heap (update_model unit tt (fun _ _ _ => tt) sample_tagger).2) /\
  (forall next examples,
     CacheCoherent
       (heap (add_unlabelled_examples unit sample_pos_tag next examples
                                      sample_tagger).2)) /\
  (forall next loaded,
     CacheCoherent (heap (load_data unit next loaded sample_tagger).2)).
Proof.
  apply (cached_features_stay_coherent unit (fun _ _ => []) (fun _ _ => [])
           (fun _ => 0%float)
           sample_pos_tag tt (fun _ _ _ => tt) sample_tagger).
  apply (BaseNerTagger_init_coherent unit sample_pos_tag
           (Some ["text one"; "text two"])).
Defined.

(** ** What an accepted correction stores *)

Lemma corrected_tokens_fields (raw : list Token) (data : list (string * string))
    (toret : list Token) :
  length data = length raw ->
  corrected_tokens raw data = Some toret ->
  map tok_word toret = map tok_word raw /\
  map tok_pos toret = map tok_pos raw /\
  map tok_label toret = map (fun d => Some d.2) data.
Proof.
  intros Hlen H.
  assert (Hz : corrected_tokens raw data
               = Some (map (fun td : Token * (string * string) =>
                              mkToken (tok_word td.1) (tok_pos td.1)
                                      (Some td.2.2))
                           (zip raw data))).
  { unfold corrected_tokens.
    replace (length data) with (length (zip raw data))
      by (rewrite zip_length_le; lia).
    apply (mapM_seq_lookup _
             (fun td : Token * (string * string) =>
                mkToken (tok_word td.1) (tok_pos td.1) (Some td.2.2))
             (zip raw data) 0%nat).
    intros i [t d] Hx. apply zip_lookup in Hx as [Ht Hd].
    simpl. rewrite Ht, Hd. reflexivity. }
  rewrite Hz in H. injection H as <-.
  clear Hz. revert data Hlen.
  induction raw as [|t raw IH]; intros [|d data] Hlen; simpl in Hlen;
    try lia; try (repeat split; reflexivity).
  destruct (IH data) as (Hw & Hp & Hl); [lia|].
  simpl. rewrite Hw, Hp, Hl. repeat split.
Qed.

(** An accepted correction rewrites the current example in place: its
    tokens keep their surface forms and POS tags and take the submitted
    labels, its features are computed from the new tokens, and the labelled
    pool ends with that same example.  The current selection is not
    cleared. *)
Theorem save_example_stores_correction
    (Model : Type) (s : Tagger Model) (data : list (string * string))
    (a : nat) (ex : Example) (i : Z) (pool : list nat) :
  current_example s = Some a ->
  heap s !! a = Some ex ->
  length data = length (ex_raw ex) ->
  current_example_index s = Some i ->
  unlabelled s = Some pool ->
  0 <= i < Z.of_nat (length pool) ->
  exists (s' : Tagger Model) (toret : list Token) (f : list Features),
    save_example Model data s = (Returned RNone, s') /\
    heap s' !! a = Some (mkExample toret (Some f)) /\
    map tok_word toret = map tok_word (ex_raw ex) /\
    map tok_pos toret = map tok_pos (ex_raw ex) /\
    map tok_label toret = map (fun d => Some d.2) data /\
    _sent2features toret = Some f /\
    last (labelled s') = Some a /\
    (forall b, b <> a -> heap s' !! b = heap s !! b) /\
    current_example s' = Some a /\
    current_example_index s' = Some i /\
    model s' = model s.
Proof.
  intros Hc Hh Hlen Hi Hu Hrange. unfold save_example. rewrite Hc, Hh.
  destruct (Nat.eqb_spec (length data) (length (ex_raw ex))) as [E|E];
    [|contradiction].
  cbn [negb].
  destruct (corrected_tokens_total (ex_raw ex) data Hlen) as (toret & Ht & _).
  rewrite Ht.
  destruct (corrected_tokens_fields _ _ _ Hlen Ht) as (Hw & Hp & Hl).
  destruct (_sent2features_total toret) as [f Hf]. rewrite Hf.
  cbn [current_example_index unlabelled set_labelled set_heap].
  rewrite Hi, Hu. unfold py_pop.
  assert (H0 : (0 <=? i) && (i <? Z.of_nat (length pool)) = true).
  { apply andb_true_intro. split; [apply Z.leb_le|apply Z.ltb_lt]; lia. }
  rewrite H0.
  eexists _, toret, f. split; [reflexivity|]. cbn.
  split; [apply lookup_insert_eq|].
  repeat (split; [assumption|]).
  split; [apply last_snoc|].
  split; [|repeat split; assumption].
  intros b Hb. rewrite !lookup_insert_ne by congruence. reflexivity.
Qed.

Lemma save_example_stores_correction_witness :
  exists (s' : Tagger unit) (toret : list Token) (f : list Features),
    save_example unit [("text", "O"); ("one", "U-CT")] sample_tagger
    = (Returned RNone, s') /\
    heap s' !! 0%nat = Some (mkExample toret (Some f)) /\
    map tok_word toret
      = map tok_word (ex_raw (mkExample (sample_pos_tag "text one") None)) /\
    map tok_pos toret
      = map tok_pos (ex_raw (mkExample (sample_pos_tag "text one") None)) /\
    map tok_label toret
      = map (fun d => Some d.2) [("text", "O"); ("one", "U-CT")] /\
    _sent2features toret = Some f /\
    last (labelled s') = Some 0%nat /\
    (forall b, b <> 0%nat -> heap s' !! b = heap sample_tagger !! b) /\
    current_example s' = Some 0%nat /\
    current_example_index s' = Some 0 /\
    model s' = model sample_tagger.
Proof.
  apply (save_example_stores_correction unit sample_tagger
           [("text", "O"); ("one", "U-CT")] 0%nat
           (mkExample (sample_pos_tag "text one") None) 0 [0; 1]%nat).
  - reflexivity.
  - vm_compute. reflexivity.
  - reflexivity.
  - reflexivity.
  - reflexivity.
  - simpl. lia.
Defined.

(** When the current selection is consistent (the current index is the
    position of the current example in a pool without repeated entries),
    an accepted correction moves that example: it is no longer in the
    unlabelled pool, every other entry stays, in order, and it is in the
    labelled pool. *)
Theorem save_example_moves_current
    (Model : Type) (s : Tagger Model) (data : list (string * string))
    (a : nat) (ex : Example) (i : nat) (pool : list nat) :
  current_example s = Some a ->
  heap s !! a = Some ex ->
  length data = length (ex_raw ex) ->
  current_example_index s = Some (Z.of_nat i) ->
  unlabelled s = Some pool ->
  pool !! i = Some a ->
  NoDup pool ->
  exists (s' : Tagger Model) (pool' : list nat),
    save_example Model data s = (Returned RNone, s') /\
    unlabelled s' = Some pool' /\
    (a ∉ pool') /\
    (forall b, b ∈ pool -> b <> a -> b ∈ pool') /\
    pool' = (take i pool ++ drop (S i) pool)%list /\
    a ∈ labelled s'.
Proof.
  intros Hc Hh Hlen Hi Hu Hpos Hnd. unfold save_example. rewrite Hc, Hh.
  destruct (Nat.eqb_spec (length data) (length (ex_raw ex))) as [E|E];
    [|contradiction].
  cbn [negb].
  destruct (corrected_tokens_total (ex_raw ex) data Hlen) as (toret & -> & _).
  destruct (_sent2features_total toret) as [f ->].
  cbn [current_example_index unlabelled set_labelled set_heap].
  rewrite Hi, Hu. unfold py_pop.
  assert (Hlt : (i < length pool)%nat) by (eapply lookup_lt_Some; exact Hpos).
  assert (H0 : (0 <=? Z.of_nat i) && (Z.of_nat i <? Z.of_nat (length pool))
               = true).
  { apply andb_true_intro. split; [apply Z.leb_le|apply Z.ltb_lt]; lia. }
  rewrite H0, Nat2Z.id.
  eexists _, (delete i pool). split; [reflexivity|]. cbn.
  split; [reflexivity|].
  assert (Hsplit : pool = (take i pool ++ a :: drop (S i) pool)%list).
  { rewrite <- (take_drop_middle pool i a Hpos) at 1. reflexivity. }
  rewrite delete_take_drop.
  assert (Hnd' : NoDup (take i pool ++ a :: drop (S i) pool))
    by (rewrite <- Hsplit; exact Hnd).
  apply NoDup_app in Hnd' as (_ & Hdisj & Hnd2).
  apply NoDup_cons in Hnd2 as [Hnotin _].
  split.
  { intros Hin. apply elem_of_app in Hin as [Hin|Hin].
    - apply (Hdisj a Hin). left.
    - exact (Hnotin Hin). }
  split.
  { intros b Hb Hne. rewrite Hsplit in Hb.
    apply elem_of_app in Hb as [Hb|Hb]; [apply elem_of_app; left; exact Hb|].
    apply elem_of_cons in Hb as [Hb|Hb]; [contradiction|].
    apply elem_of_app. right. exact Hb. }
  split; [reflexivity|].
  apply elem_of_app. right. left.
Qed.

Lemma save_example_moves_current_witness :
  exists (s' : Tagger unit) (pool' : list nat),
    save_example unit [("text", "O"); ("one", "U-CT")] sample_tagger
    = (Returned RNone, s') /\
    unlabelled s' = Some pool' /\
    (0%nat ∉ pool') /\
    (forall b, b ∈ [0; 1]%nat -> b <> 0%nat -> b ∈ pool') /\
    pool' = (take 0 [0; 1]%nat ++ drop 1 [0; 1]%nat)%list /\
    0%nat ∈ labelled s'.
Proof.
  apply (save_example_moves_current unit sample_tagger
           [("text", "O"); ("one", "U-CT")] 0%nat
           (mkExample (sample_pos_tag "text one") None) 0%nat [0; 1]%nat).
  - reflexivity.
  - vm_compute. reflexivity.
  - reflexivity.
  - reflexivity.
  - reflexivity.
  - reflexivity.
  - apply (NoDup_seq 0 2).
Defined.

(** ** Retraining *)

Lemma Forall2_common_left {A B C} (P : A -> B -> Prop) (Q : A -> C -> Prop)
    (R : B -> C -> Prop) (l : list A) (x : list B) (y : list C) :
  (forall a b c, P a b -> Q a c -> R b c) ->
  Forall2 P l x -> Forall2 Q l y -> Forall2 R x y.
Proof.
  intros H HP. revert y.
  induction HP as [|a b l x Hab _ IH]; intros y HQ; inversion HQ; subst.
  - constructor.
  - constructor; [eapply H; eassumption|apply IH; assumption].
Qed.

Lemma mapM_Some_map {A B} (g : A -> option B) (l : list A) (k : list B) :
  mapM g l = Some k -> map g l = map Some k.
Proof.
  revert k. induction l as [|x l IH]; intros k H.
  - injection H as <-. reflexivity.
  - cbn in H. destruct (g x) as [b|] eqn:Eb; [|discriminate H].
    cbn in H. destruct (mapM g l) as [k'|]; [|discriminate H].
    injection H as <-. cbn. rewrite Eb. f_equal. apply IH. reflexivity.
Qed.

Lemma save_example_coherent
    (Model : Type) (data : list (string * string)) (s : Tagger Model) :
  CacheCoherent (heap s) ->
  CacheCoherent (heap (save_example Model data s).2).
Proof.
  intros Hc. unfold save_example.
  destruct (current_example s) as [a|]; [|exact Hc].
  destruct (heap s !! a) as [ex|]; [|exact Hc].
  destruct (negb (length data =? length (ex_raw ex))%nat); [exact Hc|].
  destruct (corrected_tokens (ex_raw ex) data) as [toret|]; [|exact Hc].
  destruct (_sent2features_total toret) as [f Hf]. rewrite Hf.
  assert (Hc' : CacheCoherent
                  (<[a := mkExample toret (Some f)]>
                     (<[a := mkExample toret (ex_features ex)]> (heap s)))).
  { rewrite insert_insert_eq. apply coherent_insert; [exact Hc|].
    simpl. intros f' Hf'. injection Hf' as <-. exact Hf. }
  repeat (match goal with
          | |- context [match ?x with _ => _ end] => destruct x
          end; cbn); exact Hc'.
Qed.

(** When [update_model] returns, the model is the tagger's model (a new
    CRF if there was none) fitted on [X] and [Y], where for every position
    of the labelled pool [X] holds the features of the tokens of the
    example at that position and [Y] holds the labels of those tokens, one
    label per feature mapping; pools and examples are as before. *)
Theorem update_model_fits_aligned_data
    (Model : Type) (new_crf : Model)
    (fit : Model -> list (list Features) -> list (list string) -> Model)
    (s : Tagger Model) :
  CacheCoherent (heap s) ->
  (update_model Model new_crf fit s).1 = Returned tt ->
  exists (X : list (list Features)) (Y : list (list string)),
    model (update_model Model new_crf fit s).2
    = Some (fit (default new_crf (model s)) X Y) /\
    length X = length (labelled s) /\
    length Y = length (labelled s) /\
    (forall (k a : nat),
       labelled s !! k = Some a ->
       exists (ex : Example) (f : list Features) (y : list string),
         heap s !! a = Some ex /\
         X !! k = Some f /\
         _sent2features (ex_raw ex) = Some f /\
         Y !! k = Some y /\
         map tok_label (ex_raw ex) = map Some y /\
         length f = length y) /\
    heap (update_model Model new_crf fit s).2 = heap s /\
    unlabelled (update_model Model new_crf fit s).2 = unlabelled s /\
    labelled (update_model Model new_crf fit s).2 = labelled s.
Proof.
  intros Hc H. unfold update_model in *.
  cbv zeta in *. cbn [heap labelled set_model] in *.
  destruct (training_features (heap s) (labelled s)) as [X|] eqn:HX;
    [|discriminate H].
  destruct (training_labels (heap s) (labelled s)) as [Y|] eqn:HY;
    [|discriminate H].
  exists X, Y. cbn.
  split; [reflexivity|].
  unfold training_features in HX. unfold training_labels in HY.
  split; [symmetry; eapply length_mapM; exact HX|].
  split; [symmetry; eapply length_mapM; exact HY|].
  split; [|repeat split].
  apply mapM_Some_1 in HX. apply mapM_Some_1 in HY.
  intros k a Hk.
  destruct (Forall2_lookup_l _ _ _ _ _ HX Hk) as (f & Hf & Hxa).
  destruct (Forall2_lookup_l _ _ _ _ _ HY Hk) as (y & Hy & Hya).
  simpl in Hxa, Hya.
  destruct (heap s !! a) as [ex|] eqn:Hex; [|discriminate Hxa].
  simpl in Hxa, Hya.
  pose proof (Hc a ex f Hex Hxa) as Hs.
  exists ex, f, y.
  split; [reflexivity|]. split; [exact Hf|]. split; [exact Hs|].
  split; [exact Hy|].
  unfold _sent2labels in Hya.
  pose proof (mapM_Some_map tok_label _ _ Hya) as Hl.
  split; [exact Hl|].
  apply _sent2features_length in Hs. rewrite Hs.
  rewrite <- (length_map tok_label), Hl, length_map. reflexivity.
Qed.

Lemma update_model_fits_aligned_data_witness :
  labelled sample_labelled_tagger = [0%nat] /\
  exists (X : list (list Features)) (Y : list (list string)),
    model (update_model nat 0%nat (fun m _ _ => S m) sample_labelled_tagger).2
    = Some ((fun m _ _ => S m)
              (default 0%nat (model sample_labelled_tagger)) X Y) /\
    length X = length (labelled sample_labelled_tagger) /\
    length Y = length (labelled sample_labelled_tagger) /\
    (forall (k a : nat),
       labelled sample_labelled_tagger !! k = Some a ->
       exists (ex : Example) (f : list Features) (y : list string),
         heap sample_labelled_tagger !! a = Some ex /\
         X !! k = Some f /\
         _sent2features (ex_raw ex) = Some f /\
         Y !! k = Some y /\
         map tok_label (ex_raw ex) = map Some y /\
         length f = length y) /\
    heap (update_model nat 0%nat (fun m _ _ => S m) sample_labelled_tagger).2
    = heap sample_labelled_tagger /\
    unlabelled
      (update_model nat 0%nat (fun m _ _ => S m) sample_labelled_tagger).2
    = unlabelled sample_labelled_tagger /\
    labelled
      (update_model nat 0%nat (fun m _ _ => S m) sample_labelled_tagger).2
    = labelled sample_labelled_tagger.
Proof.
  split; [reflexivity|].
  apply (update_model_fits_aligned_data nat 0%nat (fun m _ _ => S m)
           sample_labelled_tagger).
  - apply (save_example_coherent nat [("text", "O"); ("one", "U-CC")]
             sample_selected_nat).
    apply (BaseNerTagger_init_coherent nat sample_pos_tag
             (Some ["text one"; "text two"])).
  - reflexivity.
Defined.





(** ** Repeating a correction, and reloading *)

Lemma save_example_accepted
    (Model : Type) (s : Tagger Model) (data : list (string * string))
    (a : nat) (ex : Example) (i : Z) (pool : list nat) :
  current_example s = Some a ->
  heap s !! a = Some ex ->
  length data = length (ex_raw ex) ->
  current_example_index s = Some i ->
  unlabelled s = Some pool ->
  0 <= i < Z.of_nat (length pool) ->
  exists (toret : list Token) (f : list Features),
    length toret = length (ex_raw ex) /\
    save_example Model data s
    = (Returned RNone,
       mkTagger Model
         (<[a := mkExample toret (Some f)]>
            (<[a := mkExample toret (ex_features ex)]> (heap s)))
         (Some (delete (Z.to_nat i) pool))
         (labelled s ++ [a])%list (model s) (Some i) (Some a)).
Proof.
  intros Hc Hh Hlen Hi Hu Hrange. unfold save_example. rewrite Hc, Hh.
  destruct (Nat.eqb_spec (length data) (length (ex_raw ex))) as [E|E];
    [|contradiction].
  cbn [negb].
  destruct (corrected_tokens_total (ex_raw ex) data Hlen) as (toret & Ht & Hl).
  rewrite Ht.
  destruct (_sent2features_total toret) as [f Hf]. rewrite Hf.
  cbn [current_example_index unlabelled set_labelled set_heap].
  rewrite Hi, Hu. unfold py_pop.
  assert (H0 : (0 <=? i) && (i <? Z.of_nat (length pool)) = true).
  { apply andb_true_intro. split; [apply Z.leb_le|apply Z.ltb_lt]; lia. }
  rewrite H0. exists toret, f. split; [exact Hl|].
  unfold set_unlabelled. cbn. rewrite Hc, Hi. reflexivity.
Qed.

(** [save_example] keeps the current selection.  Submitting the same
    correction a second time is accepted again: the same example is
    appended to the labelled pool once more, and the entry that has moved
    to the current position is removed from the unlabelled pool. *)
Theorem save_example_twice
    (Model : Type) (s : Tagger Model) (data : list (string * string))
    (a : nat) (ex : Example) (i : Z) (pool : list nat) :
  current_example s = Some a ->
  heap s !! a = Some ex ->
  length data = length (ex_raw ex) ->
  current_example_index s = Some i ->
  unlabelled s = Some pool ->
  0 <= i < Z.of_nat (length pool) - 1 ->
  exists s1 s2 : Tagger Model,
    save_example Model data s = (Returned RNone, s1) /\
    save_example Model data s1 = (Returned RNone, s2) /\
    labelled s2 = (labelled s ++ [a; a])%list /\
    unlabelled s2 = Some (delete (Z.to_nat i) (delete (Z.to_nat i) pool)) /\
    (length (labelled s2) + length (delete (Z.to_nat i) (delete (Z.to_nat i) pool))
     = length (labelled s) + length pool)%nat.
Proof.
  intros Hc Hh Hlen Hi Hu Hrange.
  destruct (save_example_accepted Model s data a ex i pool)
    as (toret & f & Hl & H1); try assumption; [lia|].
  assert (Hd1 : (length (delete (Z.to_nat i) pool) + 1 = length pool)%nat).
  { rewrite length_delete; [lia|]. apply lookup_lt_is_Some_2. lia. }
  destruct (save_example_accepted Model
              (mkTagger Model
                 (<[a := mkExample toret (Some f)]>
                    (<[a := mkExample toret (ex_features ex)]> (heap s)))
                 (Some (delete (Z.to_nat i) pool))
                 (labelled s ++ [a])%list (model s) (Some i) (Some a))
              data a (mkExample toret (Some f)) i (delete (Z.to_nat i) pool))
    as (toret2 & f2 & _ & H2).
  - reflexivity.
  - cbn. apply lookup_insert_eq.
  - cbn. lia.
  - reflexivity.
  - reflexivity.
  - lia.
  - eexists _, _. split; [exact H1|].
    split; [exact H2|]. cbn.
    split; [rewrite <- app_assoc; reflexivity|].
    split; [reflexivity|].
    assert (Hd2 : (length (delete (Z.to_nat i) (delete (Z.to_nat i) pool)) + 1
                   = length (delete (Z.to_nat i) pool))%nat).
    { rewrite length_delete; [lia|]. apply lookup_lt_is_Some_2. lia. }
    rewrite !length_app. simpl. lia.
Qed.

Lemma save_example_twice_witness :
  exists s1 s2 : Tagger unit,
    save_example unit [("text", "O"); ("one", "U-CT")] sample_tagger
    = (Returned RNone, s1) /\
    save_example unit [("text", "O"); ("one", "U-CT")] s1
    = (Returned RNone, s2) /\
    labelled s2 = (labelled sample_tagger ++ [0; 0])%nat%list /\
    unlabelled s2
    = Some (delete (Z.to_nat 0) (delete (Z.to_nat 0) [0; 1]%nat)) /\
    (length (labelled s2)
     + length (delete (Z.to_nat 0) (delete (Z.to_nat 0) [0; 1]%nat))
     = length (labelled sample_tagger) + length [0; 1]%nat)%nat.
Proof.
  apply (save_example_twice unit sample_tagger
           [("text", "O"); ("one", "U-CT")] 0%nat
           (mkExample (sample_pos_tag "text one") None) 0 [0; 1]%nat).
  - reflexivity.
  - vm_compute. reflexivity.
  - reflexivity.
  - reflexivity.
  - reflexivity.
  - simpl. lia.
Defined.

Lemma reload_examples_spec (loaded : list Example) :
  forall (next : nat) (h : gmap nat Example),
    exists h' : gmap nat Example,
      reload_examples next loaded h = Some (seq next (length loaded), h') /\
      (forall a, (a < next)%nat -> h' !! a = h !! a) /\
      (forall k lab, loaded !! k = Some lab ->
         exists f, _sent2features (ex_raw lab) = Some f /\
                   h' !! (next + k)%nat
                   = Some (mkExample (ex_raw lab) (Some f))).
Proof.
  induction loaded as [|lab loaded IH]; intros next h.
  - exists h. split; [reflexivity|]. split; [reflexivity|].
    intros k l Hk. discriminate Hk.
  - simpl reload_examples.
    destruct (_sent2features_total (ex_raw lab)) as [f Hf]. rewrite Hf.
    cbn [mbind option_bind].
    match goal with
    | |- context [reload_examples (S next) loaded ?m] =>
        destruct (IH (S next) m) as (h' & Ha & Hold & Hnew)
    end.
    exists h'. rewrite Ha. split; [reflexivity|]. split.
    + intros a Ha'. rewrite Hold by lia. apply lookup_insert_ne. lia.
    + intros [|k] l Hk; simpl in Hk.
      * injection Hk as <-. exists f. split; [exact Hf|].
        rewrite Nat.add_0_r, Hold by lia. apply lookup_insert_eq.
      * replace (next + S k)%nat with (S next + k)%nat by lia.
        apply Hnew. exact Hk.
Qed.

(** [load_data] replaces the labelled pool by the loaded examples, in
    their order, and never fails on them: each one keeps its tokens, and
    its features are computed from those tokens, whatever features the
    file held; the unlabelled pool, its examples and the model stay. *)
Theorem load_data_recomputes_features
    (Model : Type) (next : nat) (loaded : list Example) (s : Tagger Model) :
  exists s' : Tagger Model,
    load_data Model next loaded s = (Returned tt, s') /\
    length (labelled s') = length loaded /\
    (forall k lab, loaded !! k = Some lab ->
       exists a f,
         labelled s' !! k = Some a /\
         heap s' !! a = Some (mkExample (ex_raw lab) (Some f)) /\
         _sent2features (ex_raw lab) = Some f) /\
    (forall a, (a < next)%nat -> heap s' !! a = heap s !! a) /\
    unlabelled s' = unlabelled s /\ model s' = model s.
Proof.
  unfold load_data.
  destruct (reload_examples_spec loaded next (heap s))
    as (h' & Hr & Hold & Hnew).
  rewrite Hr. eexists. split; [reflexivity|]. cbn.
  split; [apply length_seq|]. split; [|split; [exact Hold|split; reflexivity]].
  intros k lab Hk. destruct (Hnew k lab Hk) as (f & Hf & Hh).
  exists (next + k)%nat, f. split; [|split; assumption].
  apply lookup_seq. split; [reflexivity|]. eapply lookup_lt_Some. exact Hk.
Qed.

(** ** Extraction on well-formed and on ill-formed predictions *)

Lemma scan_inside_run (um : gmap string string) (t : string)
    (ws : list string) :
  t <> "O" ->
  forall (tail : list (string * string)) (toks : list string)
         (acc : list Entity),
    scan_entities um (map (fun x => (x, ("I-" ++ t)%string)) ws ++ tail)%list
                  t toks acc
    = scan_entities um tail t (toks ++ ws)%list acc.
Proof.
  intros Ht. apply String.eqb_neq in Ht.
  induction ws as [|w ws IH]; intros tail toks acc.
  - rewrite app_nil_r. reflexivity.
  - simpl map. simpl app. cbn [scan_entities]. simpl PyStr.startswith.
    cbv iota. rewrite Ht. rewrite IH. rewrite <- app_assoc. reflexivity.
Qed.

Lemma scan_begin_step (um : gmap string string) (w t : string)
    (rest : list (string * string)) (curr : string) (acc : list Entity) :
  scan_entities um ((w, ("B-" ++ t)%string) :: rest) curr [] acc
  = scan_entities um rest t [w] acc.
Proof.
  cbn [scan_entities]. simpl PyStr.startswith.
  change ("B-" ++ t) with (String "B" (String "-" t)).
  rewrite drop2_prefixed. reflexivity.
Qed.

Lemma scan_last_step (um : gmap string string) (wl t name : string)
    (rest : list (string * string)) (toks : list string) (acc : list Entity) :
  t <> "O" ->
  um !! t = Some name ->
  scan_entities um ((wl, ("L-" ++ t)%string) :: rest) t toks acc
  = scan_entities um rest t []
      (acc ++ [mkEntity (PyStr.join " " (toks ++ [wl])) name])%list.
Proof.
  intros Ht Hname. apply String.eqb_neq in Ht.
  cbn [scan_entities]. simpl PyStr.startswith. cbv iota.
  rewrite Ht. unfold append_entity. rewrite Hname. reflexivity.
Qed.

Lemma scan_well_formed_prefix (um : gmap string string)
    (pre : list (string * string)) (ents : list Entity) :
  Extracts um pre ents ->
  forall (tail : list (string * string)) (curr : string) (acc : list Entity),
    exists curr' : string,
      scan_entities um (pre ++ tail)%list curr [] acc
      = scan_entities um tail curr' [] (acc ++ ents)%list.
Proof.
  induction 1 as [|w rest ents _ IH|w t name rest ents Hname _ IH
                  |w t name ws wl rest ents Hname Ht _ IH];
    intros tail curr acc.
  - exists curr. rewrite app_nil_r. reflexivity.
  - destruct (IH tail "O" acc) as [curr' Hc]. exists curr'. exact Hc.
  - destruct (IH tail t (acc ++ [mkEntity w name])%list) as [curr' Hc].
    exists curr'. simpl app. rewrite unit_step_drops_pending.
    unfold append_entity. rewrite Hname. cbn [mbind option_bind].
    rewrite <- app_assoc in Hc. exact Hc.
  - destruct (IH tail t
                 (acc ++ [mkEntity (PyStr.join " " (w :: ws ++ [wl])%list) name])%list)
      as [curr' Hc].
    exists curr'.
    assert (Hl : (((w, ("B-" ++ t)%string)
                     :: map (fun x => (x, ("I-" ++ t)%string)) ws
                     ++ (wl, ("L-" ++ t)%string) :: rest) ++ tail
                  = (w, ("B-" ++ t)%string)
                      :: map (fun x => (x, ("I-" ++ t)%string)) ws
                      ++ (wl, ("L-" ++ t)%string) :: (rest ++ tail))%list).
    { simpl. rewrite <- app_assoc. reflexivity. }
    rewrite Hl. clear Hl.
    rewrite scan_begin_step, (scan_inside_run um t ws Ht),
            (scan_last_step um wl t name _ _ _ Ht Hname).
    rewrite <- app_assoc in Hc. exact Hc.
Qed.

(** On a well-formed prediction whose tags are in the vocabulary,
    [find_entities_in_text] returns one entity per Unit token and per
    Begin .. Last run, in the order of the text, with the tokens of a run
    joined by single spaces and the tag replaced by its name. *)
Theorem find_entities_on_well_formed_prediction
    (Model : Type) (predict_single : Model -> list Features -> list string)
    (pos_tag : string -> list Token)
    (self : NerTagger Model) (text : string) (m : Model)
    (features : list Features) (ents : list Entity) :
  _sent2features (pos_tag text) = Some features ->
  model (ntagger self) = Some m ->
  Extracts (utmapping self)
           (zip (map tok_word (pos_tag text)) (predict_single m features))
           ents ->
  find_entities_in_text Model predict_single pos_tag self text = Returned ents.
Proof.
  intros Hf Hm Hx. unfold find_entities_in_text. rewrite Hf, Hm.
  destruct (scan_well_formed_prefix _ _ _ Hx [] "O" []) as [curr' Hc].
  rewrite app_nil_r in Hc. rewrite Hc. reflexivity.
Qed.

Lemma find_entities_on_well_formed_prediction_witness :
  find_entities_in_text unit
    (fun _ _ => ["B-CT"; "I-CT"; "L-CT"; "O"; "U-PROF"])
    (fun _ => [unlabelled_token "Intro" "NN"; unlabelled_token "to" "TO";
               unlabelled_token "Logic" "NN"; unlabelled_token "by" "IN";
               unlabelled_token "Smith" "NNP"])
    (mkNerTagger unit main_tags
       (mkTagger unit ∅ (Some []) [] (Some tt) None None)
       (<["PROF" := "Professor"]> (<["CT" := "Course Title"]> ∅)))
    "Intro to Logic by Smith"
  = Returned [mkEntity "Intro to Logic" "Course Title";
              mkEntity "Smith" "Professor"].
Proof.
  eapply (find_entities_on_well_formed_prediction unit _ _ _ _ tt).
  - reflexivity.
  - reflexivity.
  - apply (extracts_span _ "Intro" "CT" "Course Title" ["to"] "Logic");
      [vm_compute; reflexivity|discriminate|].
    apply extracts_outside.
    apply (extracts_unit _ "Smith" "PROF" "Professor");
      [vm_compute; reflexivity|].
    apply extracts_nil.
Defined.

(** A Unit tag whose identifier is not in the vocabulary makes the
    extraction raise [KeyError], also after a well-formed beginning: the
    entities found before it are not returned. *)
Theorem find_entities_unknown_tag_raises
    (Model : Type) (predict_single : Model -> list Features -> list string)
    (pos_tag : string -> list Token)
    (self : NerTagger Model) (text : string) (m : Model)
    (features : list Features)
    (pre rest : list (string * string)) (ents : list Entity) (w t : string) :
  _sent2features (pos_tag text) = Some features ->
  model (ntagger self) = Some m ->
  zip (map tok_word (pos_tag text)) (predict_single m features)
    = (pre ++ (w, ("U-" ++ t)%string) :: rest)%list ->
  Extracts (utmapping self) pre ents ->
  utmapping self !! t = None ->
  find_entities_in_text Model predict_single pos_tag self text = Raised KeyError.
Proof.
  intros Hf Hm Hz Hx Hn. unfold find_entities_in_text. rewrite Hf, Hm, Hz.
  destruct (scan_well_formed_prefix _ _ _ Hx
              ((w, ("U-" ++ t)%string) :: rest) "O" []) as [curr' Hc].
  rewrite Hc, unit_step_drops_pending.
  unfold append_entity. rewrite Hn. reflexivity.
Qed.

Lemma find_entities_unknown_tag_raises_witness :
  find_entities_in_text unit
    (fun _ _ => ["U-PROF"; "O"; "U-ROOM"])
    (fun _ => [unlabelled_token "Smith" "NNP"; unlabelled_token "in" "IN";
               unlabelled_token "B12" "NN"])
    (mkNerTagger unit main_tags
       (mkTagger unit ∅ (Some []) [] (Some tt) None None)
       (<["PROF" := "Professor"]> (<["CT" := "Course Title"]> ∅)))
    "Smith in B12"
  = Raised KeyError.
Proof.
  eapply (find_entities_unknown_tag_raises unit _ _ _ _ tt _
            [("Smith", "U-PROF"); ("in", "O")] [] _ "B12" "ROOM").
  - reflexivity.
  - reflexivity.
  - reflexivity.
  - apply (extracts_unit _ "Smith" "PROF" "Professor");
      [vm_compute; reflexivity|].
    apply extracts_outside. apply extracts_nil.
  - vm_compute. reflexivity.
Defined.

(** A prediction without any Begin or Unit tag gives no entity and raises
    nothing: Inside and Last tags met while no entity is open are
    dropped. *)
Theorem scan_without_begin_is_empty (um : gmap string string)
    (lst : list (string * string)) :
  Forall (fun p => PyStr.startswith "B-" p.2 = false /\
                   PyStr.startswith "U-" p.2 = false) lst ->
  scan_entities um lst "O" [] [] = Some [].
Proof.
  induction 1 as [|[w tag] lst [HB HU] _ IH]; [reflexivity|].
  cbn [snd] in HB, HU. cbn [scan_entities]. rewrite HB.
  destruct (PyStr.startswith "I-" tag); [exact IH|].
  destruct (PyStr.startswith "L-" tag); [exact IH|].
  rewrite HU.
  destruct (PyStr.startswith "O" tag); exact IH.
Qed.

Lemma scan_without_begin_is_empty_witness :
  scan_entities (<["PROF" := "Professor"]> ∅)
    [("John", "I-PROF"); ("Smith", "L-PROF"); ("teaches", "O")] "O" [] []
  = Some [].
Proof.
  apply (scan_without_begin_is_empty (<["PROF" := "Professor"]> ∅)).
  repeat constructor.
Defined.

(** ** The tag vocabulary of a session and the colors of the page *)

(** The name that [utmapping] gives to a tag identifier is the name of the
    last pair of [unique_tags] with that identifier, and identifiers that
    occur in no pair are not in the mapping. *)
Theorem utmapping_lookup
    (Model : Type) (pos_tag : string -> list Token)
    (dataset : option (list string)) (tags : list (string * string))
    (id : string) :
  exists self : NerTagger Model,
    NerTagger_init Model pos_tag dataset tags = Returned self /\
    utmapping self !! id
    = (fun t => t.2) <$> last (filter (fun t => t.1 = id) tags).
Proof.
  eexists. split; [reflexivity|]. cbn [utmapping].
  induction tags as [|t tags IH] using rev_ind.
  - simpl. apply lookup_empty.
  - rewrite foldl_snoc, filter_app.
    destruct (decide (t.1 = id)) as [E|E].
    + rewrite E, lookup_insert_eq.
      rewrite (filter_cons_True _ t []) by exact E.
      rewrite filter_nil, last_snoc. reflexivity.
    + rewrite lookup_insert_ne by exact E.
      rewrite (filter_cons_False _ t []) by exact E.
      rewrite filter_nil, app_nil_r. exact IH.
Qed.

Lemma list_of_colors_NoDup : NoDup list_of_colors.
Proof.
  apply (bool_decide_unpack (NoDup list_of_colors)). vm_compute. reflexivity.
Qed.

Lemma css_classes_from (colors : list string) (tags : list (string * string)) :
  forall k : nat,
    (k + length tags <= length colors)%nat ->
    mapM (fun '(index, item) =>
            color ← colors !! index;
            Some ((item : string * string).1, color))
         (imap (fun index item => ((k + index)%nat, item)) tags)
    = Some (map (fun tc : (string * string) * string => (tc.1.1, tc.2))
                (zip tags (drop k colors))).
Proof.
  induction tags as [|t tags IH]; intros k Hk; [reflexivity|].
  simpl in Hk. rewrite imap_cons.
  destruct (lookup_lt_is_Some_2 colors k) as [c Hc]; [lia|].
  rewrite (drop_S colors c k Hc).
  cbn [mapM]. rewrite Nat.add_0_r, Hc. cbn [mbind option_bind].
  rewrite (imap_ext _ (fun index item => ((S k + index)%nat, item)))
    by (intros; simpl; f_equal; lia).
  rewrite (IH (S k)) by lia. reflexivity.
Qed.

(** With no more tags than colors the page is rendered and nothing is
    raised: the tag at position [i] gets the color at position [i], so the
    tags of a session get distinct colors. *)
Theorem render_assigns_colors_in_order
    (template_render : list (string * string) -> list (string * string) -> string)
    (tags : list (string * string)) :
  (length tags <= length list_of_colors)%nat ->
  exists css : list (string * string),
    _render_app_template template_render tags
    = Returned (template_render css tags) /\
    map fst css = map fst tags /\
    map snd css = take (length tags) list_of_colors /\
    NoDup (map snd css).
Proof.
  intros Hlen. unfold _render_app_template.
  destruct (Nat.ltb_spec (length list_of_colors) (length tags)) as [L|_];
    [lia|].
  unfold css_classes_of.
  rewrite (imap_ext _ (fun index item => ((0 + index)%nat, item)))
    by reflexivity.
  rewrite (css_classes_from list_of_colors tags 0) by exact Hlen.
  rewrite drop_0.
  eexists. split; [reflexivity|].
  assert (Hz : forall (l : list (string * string)) (c : list string),
            (length l <= length c)%nat ->
            map fst (map (fun tc : (string * string) * string => (tc.1.1, tc.2))
                         (zip l c)) = map fst l /\
            map snd (map (fun tc : (string * string) * string => (tc.1.1, tc.2))
                         (zip l c)) = take (length l) c).
  { induction l as [|x l IH]; intros [|y c] H; simpl in H;
      try lia; try (split; reflexivity).
    destruct (IH c) as [H1 H2]; [lia|].
    simpl. rewrite H1, H2. split; reflexivity. }
  destruct (Hz tags list_of_colors Hlen) as [H1 H2].
  split; [exact H1|]. split; [exact H2|].
  rewrite H2. pose proof list_of_colors_NoDup as Hnd.
  rewrite <- (take_drop (length tags) list_of_colors) in Hnd.
  apply NoDup_app in Hnd as [Hnd _]. exact Hnd.
Qed.

Lemma render_assigns_colors_in_order_witness :
  exists css : list (string * string),
    _render_app_template (fun _ _ => "page") main_tags
    = Returned ((fun _ _ => "page") css main_tags) /\
    map fst css = map fst main_tags /\
    map snd css = take (length main_tags) list_of_colors /\
    NoDup (map snd css).
Proof.
  apply (render_assigns_colors_in_order (fun _ _ => "page") main_tags).
  simpl. lia.
Defined.

(** ** Decoding edited markup, and the routes *)

Lemma decode_grouped (spans : list Span) (tags : list (string * string)) :
  Grouped 0 spans tags ->
  _get_bilou_tags_from_html spans = Some (Returned tags).
Proof.
  intros G. unfold _get_bilou_tags_from_html.
  rewrite (grouped_tag_ids _ _ _ G).
  apply (decode_loop_grouped 0 spans tags G [] [] (length spans)).
  - reflexivity.
  - constructor.
  - lia.
Qed.

(** Decoding goes by group sizes alone.  On every markup whose tagged
    groups are runs of adjacent elements, numbered upwards from 0, a group
    of one element is read as Unit, a group of two as Begin and Last, and a
    longer one as Begin, Inside .. Inside, Last, with the tag of its first
    element; untagged elements are read as Outside. *)
Theorem decoding_of_grouped_markup (spans : list Span)
    (tags : list (string * string)) :
  Grouped 0 spans tags ->
  _get_bilou_tags_from_html spans = Some (Returned tags).
Proof.
  exact (decode_grouped spans tags).
Qed.

Lemma decoding_of_grouped_markup_witness :
  _get_bilou_tags_from_html
    [plain_span "the"; tagged_span "John" 0 "PROF"; tagged_span "A" 0 "PROF";
     tagged_span "Smith" 0 "PROF"; tagged_span "CS101" 1 "CC"]
  = Some (Returned [("the", "O"); ("John", "B-PROF"); ("A", "I-PROF");
                    ("Smith", "L-PROF"); ("CS101", "U-CC")]).
Proof.
  apply (decoding_of_grouped_markup
           [plain_span "the"; tagged_span "John" 0 "PROF";
            tagged_span "A" 0 "PROF"; tagged_span "Smith" 0 "PROF";
            tagged_span "CS101" 1 "CC"]).
  apply grouped_plain.
  apply (grouped_span 0 "John" "PROF" ["A"] "Smith").
  apply (grouped_unit 1 "CS101" "CC").
  apply grouped_nil.
Defined.


(** The route [/save_example] answers "Success" also when nothing was
    saved: if the submitted markup decodes to a number of elements other
    than the token count of the current example, the tagger is left as it
    was and the answer is still "Success". *)
Theorem route_save_example_hides_rejection
    (Model : Type) (s : Tagger Model) (html : list Span)
    (user_tags : list (string * string)) (a : nat) (ex : Example) :
  _get_bilou_tags_from_html html = Some (Returned user_tags) ->
  current_example s = Some a ->
  heap s !! a = Some ex ->
  length user_tags <> length (ex_raw ex) ->
  route_save_example Model html s = (Returned "Success", s).
Proof.
  intros Hd Hc Hh Hlen. unfold route_save_example, save_example.
  rewrite Hd, Hc, Hh.
  destruct (Nat.eqb_spec (length user_tags) (length (ex_raw ex))) as [E|E];
    [contradiction|reflexivity].
Qed.

Lemma route_save_example_hides_rejection_witness :
  route_save_example unit [plain_span "text"] sample_tagger
  = (Returned "Success", sample_tagger).
Proof.
  apply (route_save_example_hides_rejection unit sample_tagger
           [plain_span "text"] [("text", "O")] 0%nat
           (mkExample (sample_pos_tag "text one") None)).
  - reflexivity.
  - reflexivity.
  - vm_compute. reflexivity.
  - simpl. lia.
Defined.





(** ** The query regime selects a most uncertain sampled example *)

Section ArgmaxProperties.

Local Open Scope float_scope.





End ArgmaxProperties.


(** The run of the sample below: the draws alternate between the first two
    examples, whose scores are [0] and [ln 2], and the second draw is
    selected. *)
Lemma sample_query_draws_and_scores :
  exists (sample : list Z) (X : list (list Features)) (h : gmap nat Example),
    query_sample (fun k => Z.of_nat k) 3 = Some sample /\
    collect_features [0; 1; 2]%nat sample (heap sample_fitted_tagger)
    = (Some X, h) /\
    take 4 sample = [0; 1; 0; 1] /\
    take 4 (map (fun pred =>
                   Scorer._get_prediction_uncertainity sample_entropy pred
                                                       "max")
                (sample_predict_marginals tt X))
    = [Some 0%float; Some 0.6931471805599453%float;
       Some 0%float; Some 0.6931471805599453%float] /\
    Scorer.argmax
      (map (fun pred =>
              Scorer._get_prediction_uncertainity sample_entropy pred "max")
           (sample_predict_marginals tt X))
    = Returned 1%nat.
Proof.
  eexists _, _, _. split; [reflexivity|]. split; [reflexivity|].
  split; [reflexivity|]. split; reflexivity.
Qed.

